(** * real48: Borland Pascal 6-byte reals decoded to IEEE-754 floats

    A shallow embedding of [real48.py] (the reassembler [combine_ints] and
    the decoder class [real48]) together with the properties its
    specification states about it.

    Python integers are unbounded and are modelled by [Z]; a [bytes]
    object is a [list byte]; a Python [float] is an IEEE-754 binary64
    number, modelled by [spec_float] with the operations of the Standard
    Library's [SpecFloat] at precision 53 and maximal exponent 1024.
    Exceptions are modelled by a result type; the one mutating method,
    [reverse_bytes], lives in a state-and-exception monad over the
    object's fields. *)

From Stdlib Require Import ZArith List Lia Bool QArith Qabs Qpower Qfield.
From Stdlib Require Import Floats.SpecFloat Strings.Byte.
Import ListNotations.

Local Open Scope Z_scope.

(** ** Exceptions and results *)

Inductive exn : Set :=
  | TypeError
  | FloatingPointError
  | ValueError
  | IndexError
  | OverflowError
  | StructError.

Inductive result (A : Type) : Type :=
  | Ok (a : A)
  | Raise (e : exn).

Arguments Ok {A} a.
Arguments Raise {A} e.

Definition rbind {A B : Type} (r : result A) (k : A -> result B) : result B :=
  match r with
  | Ok a => k a
  | Raise e => Raise e
  end.

Declare Scope result_scope.
Delimit Scope result_scope with result.
Notation "x <- r ;; k" := (rbind r (fun x => k))
  (at level 61, r at next level, right associativity) : result_scope.
Local Open Scope result_scope.

Definition succeeds {A : Type} (r : result A) : Prop := exists a, r = Ok a.
Definition raises {A : Type} (r : result A) : Prop := exists e, r = Raise e.

(** ** Byte strings *)

Definition bytes := list byte.

Definition byte_val (b : byte) : Z := Z.of_N (Byte.to_N b).
#[global] Arguments byte_val : simpl never.

Definition byte_of_Z (z : Z) : byte :=
  match Byte.of_N (Z.to_N (z mod 256)) with
  | Some b => b
  | None => x00
  end.

(** [r48[i]] for a non-negative constant index [i]: an [int] in 0..255, or
    [IndexError] past the end. *)
Definition getitem (r48 : bytes) (i : nat) : result Z :=
  match nth_error r48 i with
  | Some b => Ok (byte_val b)
  | None => Raise IndexError
  end.

(** ** The [struct] module

    Big-endian packing of an integer on [n] bytes, and the unsigned reading
    of a big-endian byte string. *)

Fixpoint le_bytes (n : nat) (x : Z) : bytes :=
  match n with
  | O => []
  | S n' => byte_of_Z x :: le_bytes n' (x / 256)
  end.

Definition be_bytes (n : nat) (x : Z) : bytes := rev (le_bytes n x).

Fixpoint be_uint_aux (acc : Z) (l : bytes) : Z :=
  match l with
  | [] => acc
  | b :: l' => be_uint_aux (acc * 256 + byte_val b) l'
  end.

Definition be_uint (l : bytes) : Z := be_uint_aux 0 l.

(** Signed (two's complement) reading of a big-endian byte string. *)
Definition be_sint (l : bytes) : Z :=
  let u := be_uint l in
  let w := 8 * Z.of_nat (length l) in
  if u <? 2 ^ (w - 1) then u else u - 2 ^ w.

(** [struct.pack('>h', x)], [struct.pack('>i', x)]: signed, 2 and 4 bytes. *)
Definition pack_h (x : Z) : result bytes :=
  if (-32768 <=? x) && (x <=? 32767) then Ok (be_bytes 2 x) else Raise StructError.

Definition pack_i (x : Z) : result bytes :=
  if (-2147483648 <=? x) && (x <=? 2147483647) then Ok (be_bytes 4 x)
  else Raise StructError.

(** [struct.pack('>I', x)], [struct.pack('>Q', x)]: unsigned, 4 and 8 bytes. *)
Definition pack_I (x : Z) : result bytes :=
  if (0 <=? x) && (x <? 2 ^ 32) then Ok (be_bytes 4 x) else Raise StructError.

Definition pack_Q (x : Z) : result bytes :=
  if (0 <=? x) && (x <? 2 ^ 64) then Ok (be_bytes 8 x) else Raise StructError.

(** ** IEEE-754 numbers *)

(** A Python float: binary64. *)
Definition float := spec_float.

Definition prec64 : Z := 53.
Definition emax64 : Z := 1024.

Definition fadd : float -> float -> float := SFadd prec64 emax64.
Definition fmul : float -> float -> float := SFmul prec64 emax64.
Definition fdiv : float -> float -> float := SFdiv prec64 emax64.
Definition fneg : float -> float := SFopp.

(** [float(n)] for an integer [n], correctly rounded. *)
Definition float_of_int (n : Z) : float := binary_normalize prec64 emax64 n 0 false.

(** The literals of the source. *)
Definition f0_0 : float := S754_zero false.
Definition f1_0 : float := S754_finite false 4503599627370496 (-52).
Definition f2_0 : float := S754_finite false 4503599627370496 (-51).
Definition f256_0 : float := S754_finite false 4503599627370496 (-44).

Definition is_finite (f : float) : bool :=
  match f with
  | S754_zero _ | S754_finite _ _ _ => true
  | S754_infinity _ | S754_nan => false
  end.

(** [int(f)]: truncation towards zero; infinities and NaN raise. *)
Definition int_of_float (f : float) : result Z :=
  match f with
  | S754_zero _ => Ok 0
  | S754_finite s m e =>
      let a := if 0 <=? e then Zpos m * 2 ^ e else Zpos m / 2 ^ (- e) in
      Ok (if s then - a else a)
  | S754_infinity _ => Raise OverflowError
  | S754_nan => Raise ValueError
  end.

(** [2.0 ** n] for an integer [n]: the correctly rounded power of two;
    Python raises [OverflowError] when the result is out of range. *)
Definition pow_2_0 (n : Z) : result float :=
  match binary_normalize prec64 emax64 1 n false with
  | S754_infinity _ => Raise OverflowError
  | f => Ok f
  end.

(** The number with sign [s], exponent field [e] and mantissa field [m] in
    the interchange format with [mw] mantissa bits and [ew] exponent bits:
    zero and subnormal numbers for [e = 0], infinities and NaN for the
    largest [e], normal numbers otherwise. *)
Definition float_of_fields (mw ew : Z) (s : bool) (e m : Z) : spec_float :=
  let bias := 2 ^ (ew - 1) - 1 in
  if e =? 0 then
    match m with
    | Zpos p => S754_finite s p (1 - bias - mw)
    | _ => S754_zero s
    end
  else if e =? 2 ^ ew - 1 then
    match m with
    | Z0 => S754_infinity s
    | _ => S754_nan
    end
  else
    match m + 2 ^ mw with
    | Zpos p => S754_finite s p (e - bias - mw)
    | _ => S754_nan
    end.

(** The number encoded by the bit pattern [x]: sign in bit [mw + ew], then
    the exponent field, then the mantissa field. *)
Definition float_of_bits (mw ew : Z) (x : Z) : spec_float :=
  float_of_fields mw ew
    (Z.testbit x (mw + ew)) ((x / 2 ^ mw) mod 2 ^ ew) (x mod 2 ^ mw).

(** A binary32 number read as a Python float: the same number in binary64. *)
Definition double_of_single (f : spec_float) : float :=
  match f with
  | S754_finite s m e => binary_round prec64 emax64 s m e
  | _ => f
  end.

(** [struct.unpack('>f', b)[0]] and [struct.unpack('>d', b)[0]]. *)
Definition unpack_f (b : bytes) : result float :=
  if Nat.eqb (length b) 4 then Ok (double_of_single (float_of_bits 23 8 (be_uint b)))
  else Raise StructError.

Definition unpack_d (b : bytes) : result float :=
  if Nat.eqb (length b) 8 then Ok (float_of_bits 52 11 (be_uint b))
  else Raise StructError.

(** ** The reassembler *)

Definition combine_ints (int2 int4 : Z) : result bytes :=
  if ((-32767 <=? int2) && (int2 <=? 32767))
     && ((-2147483648 <=? int4) && (int4 <=? 2147483647)) then
    small <- pack_h int2 ;;
    big <- pack_i int4 ;;
    let r48 := big ++ small in
    Ok r48
  else Raise ValueError.

(** ** The decoder class *)

Record real48 : Set := mk_real48 {
  byte_str : bytes;
  sign : Z;
  exp : Z
}.

(** The argument of the constructor: a [bytes] object or any other object. *)
Inductive pyarg : Set :=
  | ArgBytes (b : bytes)
  | ArgOther.

Definition extract_sign (r48 : bytes) : result Z :=
  b0 <- getitem r48 0 ;;
  Ok (Z.shiftr (Z.land b0 128) 7).

Definition extract_exponent (r48 : bytes) : result Z :=
  getitem r48 5.

Definition init (arg : pyarg) : result real48 :=
  match arg with
  | ArgOther => Raise TypeError
  | ArgBytes r48 =>
      if negb (Nat.eqb (length r48) 6) then Raise FloatingPointError
      else
        s <- extract_sign r48 ;;
        e <- extract_exponent r48 ;;
        Ok (mk_real48 r48 s e)
  end.

(** Methods run on the object's state, which outlives an exception. *)
Definition method (A : Type) : Type := real48 -> real48 * result A.

Definition mret {A : Type} (a : A) : method A := fun self => (self, Ok a).

Definition mbind {A B : Type} (m : method A) (k : A -> method B) : method B :=
  fun self =>
    match m self with
    | (self', Ok a) => k a self'
    | (self', Raise e) => (self', Raise e)
    end.

Definition lift {A : Type} (r : result A) : method A := fun self => (self, r).

Definition get_byte_str : method bytes := fun self => (self, Ok (byte_str self)).
Definition get_sign : method Z := fun self => (self, Ok (sign self)).
Definition get_exp : method Z := fun self => (self, Ok (exp self)).

Definition set_byte_str (b : bytes) : method unit :=
  fun self => (mk_real48 b (sign self) (exp self), Ok tt).
Definition set_sign (s : Z) : method unit :=
  fun self => (mk_real48 (byte_str self) s (exp self), Ok tt).
Definition set_exp (e : Z) : method unit :=
  fun self => (mk_real48 (byte_str self) (sign self) e, Ok tt).

Declare Scope method_scope.
Delimit Scope method_scope with method.
Notation "x <~ m ;; k" := (mbind m (fun x => k))
  (at level 61, m at next level, right associativity) : method_scope.
Notation "m ;;; k" := (mbind m (fun _ => k))
  (at level 61, right associativity) : method_scope.
Local Open Scope method_scope.

(** [self.byte_str[i]] *)
Definition self_byte (i : nat) : method Z :=
  b <~ get_byte_str ;; lift (getitem b i).

Definition reverse_bytes : method unit :=
  b <~ get_byte_str ;;
  set_byte_str (rev b) ;;;
  b1 <~ get_byte_str ;;
  s <~ lift (extract_sign b1) ;;
  set_sign s ;;;
  b2 <~ get_byte_str ;;
  e <~ lift (extract_exponent b2) ;;
  set_exp e.

Definition to_single : method float :=
  a0 <~ self_byte 0 ;;
  a1 <~ self_byte 1 ;;
  a2 <~ self_byte 2 ;;
  let mant := Z.shiftl (a0 mod 128) 16 + Z.shiftl a1 8 + a2 in
  e <~ get_exp ;;
  if e =? 0 then mret f0_0
  else
    (if e =? 255 then mret tt (* pass *) else mret tt) ;;;
    let unbias_exp := e - 2 in
    s <~ get_sign ;;
    let bits := Z.shiftl s 31 + Z.shiftl unbias_exp 23 + mant in
    reformed_byte_str <~ lift (pack_I bits) ;;
    lift (unpack_f reformed_byte_str).

Definition to_double : method float :=
  a0 <~ self_byte 0 ;;
  a1 <~ self_byte 1 ;;
  a2 <~ self_byte 2 ;;
  a3 <~ self_byte 3 ;;
  a4 <~ self_byte 4 ;;
  let mant := Z.shiftl (a0 mod 128) 32 + Z.shiftl a1 24 + Z.shiftl a2 16
              + Z.shiftl a3 8 + a4 in
  e <~ get_exp ;;
  if e =? 0 then mret f0_0
  else
    (if e =? 255 then mret tt (* pass *) else mret tt) ;;;
    let unbias_exp := e + 894 in
    s <~ get_sign ;;
    let bits := Z.shiftl s 63 + Z.shiftl unbias_exp 52 + Z.shiftl mant 13 in
    reformed_byte_str <~ lift (pack_Q bits) ;;
    lift (unpack_d reformed_byte_str).

(** The nested base-256 expansion of [value]:
    [(a0 % 128)+(a1+(a2+(a3+a4/256.0)/256.0)/256.0)/256.0]. *)
Definition fraction (a0 a1 a2 a3 a4 : Z) : float :=
  fadd (float_of_int (a0 mod 128))
    (fdiv (fadd (float_of_int a1)
      (fdiv (fadd (float_of_int a2)
        (fdiv (fadd (float_of_int a3)
          (fdiv (float_of_int a4) f256_0)) f256_0)) f256_0)) f256_0).

Definition value : method float :=
  a0 <~ self_byte 0 ;;
  a1 <~ self_byte 1 ;;
  a2 <~ self_byte 2 ;;
  a3 <~ self_byte 3 ;;
  a4 <~ self_byte 4 ;;
  a5 <~ self_byte 5 ;;
  sgn <~ lift (int_of_float (fdiv (float_of_int a0) (float_of_int 128))) ;;
  let e := a5 - 129 in
  let mant :=
    if a5 =? 0 then f0_0
    else fadd f1_0 (fdiv (fmul f2_0 (fraction a0 a1 a2 a3 a4)) f256_0) in
  let mant := if sgn =? 1 then fneg mant else mant in
  p <~ lift (pow_2_0 e) ;;
  mret (fmul p mant).

(** A byte string given by the values of its bytes, the decoder built
    from it, and a method called on the outcome of a construction. *)
Definition bytes_of (l : list Z) : bytes := map byte_of_Z l.

Definition new_real48 (l : list Z) : result real48 := init (ArgBytes (bytes_of l)).

Definition call {A : Type} (m : method A) (r : result real48) : result A :=
  match r with
  | Ok self => snd (m self)
  | Raise e => Raise e
  end.

(** ** Notions used to state the properties *)

(** [represents f s T j]: [f] is the canonical binary64 number
    [(-1)^s * T * 2^j], a normal number or a signed zero. *)
Definition represents (f : float) (s : bool) (T j : Z) : Prop :=
  (T = 0 /\ f = S754_zero s)
  \/ (exists (M : positive) (E : Z),
        f = S754_finite s M E /\ Zpos (digits2_pos M) = 53
        /\ -1074 <= E <= 971 /\ E <= j /\ Zpos M = T * 2 ^ (j - E)).

(** Byte [i] of a byte string, as an integer. *)
Definition byte_at (r48 : bytes) (i : nat) : Z := byte_val (nth i r48 x00).

(** The invariant of a decoder: six bytes, and the cached fields are those
    of the current byte string. *)
Definition consistent (self : real48) : Prop :=
  length (byte_str self) = 6%nat
  /\ sign self = Z.b2z (Z.testbit (byte_at (byte_str self) 0) 7)
  /\ exp self = byte_at (byte_str self) 5.

(** The mantissa of a real48 number as an integer: the low seven bits of
    byte 0 followed by bytes 1 to 4, most significant first. *)
Definition mantissa39 (r48 : bytes) : Z :=
  ((((byte_at r48 0 mod 128) * 256 + byte_at r48 1) * 256 + byte_at r48 2) * 256
   + byte_at r48 3) * 256 + byte_at r48 4.

(** The number a real48 byte string with a non-zero exponent byte denotes,
    as a binary64 number. *)
Definition real48_double (r48 : bytes) : float :=
  S754_finite (Z.testbit (byte_at r48 0) 7)
    (Z.to_pos ((2 ^ 39 + mantissa39 r48) * 2 ^ 13)) (byte_at r48 5 - 181).

(** The rational number a finite float stands for. *)
Definition Q_of_float (f : float) : Q :=
  match f with
  | S754_finite s m e =>
      ((if s then (-1 # 1) else 1) * inject_Z (Zpos m) * Qpower 2 e)%Q
  | _ => 0%Q
  end.

(** The number the format assigns to its three fields:
    [(-1)^sign * 2^(exponent-129) * (1 + M/2^39)]. *)
Definition real48_number (sgn e M : Z) : Q :=
  (Qpower (-1 # 1) sgn * Qpower 2 (e - 129) * (1 + inject_Z M / Qpower 2 39))%Q.

(** The declared ranges of the two arguments of [combine_ints]. *)
Definition in_range (int2 int4 : Z) : Prop :=
  -32767 <= int2 <= 32767 /\ -2147483648 <= int4 <= 2147483647.

(** What a caller can do with a decoder. *)
Inductive op : Set :=
  | OpReverse
  | OpToSingle
  | OpToDouble
  | OpValue
  | OpReadSign
  | OpReadExp.

(** The state a call leaves behind, whether it returned or raised. *)
Definition run_op (o : op) (self : real48) : real48 :=
  match o with
  | OpReverse => fst (reverse_bytes self)
  | OpToSingle => fst (to_single self)
  | OpToDouble => fst (to_double self)
  | OpValue => fst (value self)
  | OpReadSign => fst (get_sign self)
  | OpReadExp => fst (get_exp self)
  end.

(** The state after a sequence of calls. *)
Definition run_ops (l : list op) (self : real48) : real48 :=
  fold_left (fun s o => run_op o s) l self.

(** A method is read-only when it leaves the object as it found it. *)
Definition read_only {A : Type} (m : method A) : Prop :=
  forall self : real48, fst (m self) = self.

(** The 23 mantissa bits [to_single] keeps: the low seven bits of byte 0,
    then bytes 1 and 2. *)
Definition mantissa23 (r48 : bytes) : Z :=
  ((byte_at r48 0 mod 128) * 256 + byte_at r48 1) * 256 + byte_at r48 2.

(** The byte string with bit 7 of byte 0 flipped. *)
Definition flip_sign_bit (r48 : bytes) : bytes :=
  match r48 with
  | [] => []
  | b0 :: rest => byte_of_Z (Z.lxor (byte_val b0) 128) :: rest
  end.

(** The negation of a returned float; an exception stays as it is. *)
Definition fneg_result (r : result float) : result float :=
  rbind r (fun x => Ok (fneg x)).

(** The 32-bit pattern of [to_single], written with bitwise or. *)
Definition single_pattern (sgn e : Z) (r48 : bytes) : Z :=
  Z.lor (Z.lor (Z.shiftl sgn 31) (Z.shiftl (e - 2) 23))
    (Z.lor (Z.lor (Z.shiftl (Z.land (byte_at r48 0) 127) 16)
                  (Z.shiftl (byte_at r48 1) 8))
           (byte_at r48 2)).

(** * Exact rounding

    When the number to round is itself representable, [binary_round_aux]
    and [binary_round] return it unchanged, in canonical form. *)

Section Rounding.

Variables prec emax : Z.

Lemma digits2_bounds (p : positive) :
  2 ^ (Zpos (digits2_pos p) - 1) <= Zpos p < 2 ^ Zpos (digits2_pos p).
Proof.
  assert (step : forall d : positive,
             2 ^ (Zpos (Pos.succ d) - 1) = 2 * 2 ^ (Zpos d - 1)
             /\ 2 ^ Zpos (Pos.succ d) = 2 * 2 ^ Zpos d).
  { intros d. rewrite Pos2Z.inj_succ.
    replace (Z.succ (Zpos d) - 1) with (Z.succ (Zpos d - 1)) by lia.
    split; apply Z.pow_succ_r; lia. }
  induction p as [p IH | p IH | ]; cbn [digits2_pos].
  - destruct (step (digits2_pos p)) as [-> ->]. lia.
  - destruct (step (digits2_pos p)) as [-> ->]. lia.
  - cbn. lia.
Qed.

Lemma digits2_unique (p : positive) (d : Z) :
  2 ^ (d - 1) <= Zpos p < 2 ^ d -> Zpos (digits2_pos p) = d.
Proof.
  intros H.
  assert (Hd : 0 < d).
  { destruct (Z.lt_ge_cases 0 d) as [|Hle]; [assumption|].
    destruct H as [_ H]. destruct (Z.eq_dec d 0) as [->|Hn].
    - cbn in H. lia.
    - rewrite Z.pow_neg_r in H by lia. lia. }
  pose proof (digits2_bounds p) as B.
  assert (Z.log2 (Zpos p) = d - 1) as L1.
  { apply Z.log2_unique; [lia|]. replace (Z.succ (d - 1)) with d by lia. exact H. }
  assert (Z.log2 (Zpos p) = Zpos (digits2_pos p) - 1) as L2.
  { apply Z.log2_unique; [lia|].
    replace (Z.succ (Zpos (digits2_pos p) - 1)) with (Zpos (digits2_pos p)) by lia.
    exact B. }
  lia.
Qed.

Lemma iter_pos_eq {A : Type} (f : A -> A) (p : positive) (x : A) :
  iter_pos f p x = Pos.iter f x p.
Proof.
  revert x. induction p as [p IH | p IH | ]; intros x; cbn.
  - rewrite !IH, <- !Pos.iter_swap. reflexivity.
  - rewrite !IH. reflexivity.
  - reflexivity.
Qed.

Lemma iter_xO_Z (m k : positive) :
  Zpos (Pos.iter xO m k) = Zpos m * 2 ^ Zpos k.
Proof.
  induction k as [|k IH] using Pos.peano_ind.
  - cbn. lia.
  - rewrite Pos.iter_succ, Pos2Z.inj_succ, Z.pow_succ_r by lia. lia.
Qed.

Lemma shr_exact (k m : positive) :
  iter_pos shr_1 k (Build_shr_record (Zpos (Pos.iter xO m k)) false false)
  = Build_shr_record (Zpos m) false false.
Proof.
  rewrite iter_pos_eq.
  induction k as [|k IH] using Pos.peano_ind.
  - reflexivity.
  - rewrite Pos.iter_succ_r, (Pos.iter_succ k _ xO m). cbn [shr_1 orb]. exact IH.
Qed.

Lemma binary_round_aux_exact (s : bool) (m : positive) (e : Z) (M : positive) (k : Z) :
  Zpos m = Zpos M * 2 ^ k -> 0 <= k ->
  Zpos (digits2_pos M) = prec ->
  emin prec emax <= e + k <= emax - prec ->
  binary_round_aux prec emax s (Zpos m) e loc_Exact = S754_finite s M (e + k).
Proof.
  intros Hm Hk HM Hr.
  assert (Hdm : Zpos (digits2_pos m) = prec + k).
  { apply digits2_unique. pose proof (digits2_bounds M) as B. rewrite HM in B.
    rewrite Hm. replace (prec + k - 1) with (prec - 1 + k) by lia.
    rewrite !Z.pow_add_r by lia.
    assert (0 < 2 ^ k) by (apply Z.pow_pos_nonneg; lia). nia. }
  unfold binary_round_aux, shr_fexp.
  cbn [Zdigits2 shr_record_of_loc]. rewrite Hdm.
  assert (Hf : fexp prec emax (prec + k + e) - e = k) by (unfold fexp; lia).
  rewrite Hf.
  assert (Hs : shr (Build_shr_record (Zpos m) false false) e k
               = (Build_shr_record (Zpos M) false false, e + k)).
  { destruct k as [|kp|kp]; [| |lia].
    - cbn [shr]. rewrite Z.pow_0_r, Z.mul_1_r in Hm. rewrite Hm, Z.add_0_r. reflexivity.
    - cbn [shr]. rewrite <- iter_xO_Z in Hm. injection Hm as ->.
      rewrite shr_exact. reflexivity. }
  rewrite Hs. cbn [shr_m loc_of_shr_record round_nearest_even Zdigits2 shr_record_of_loc].
  rewrite HM.
  assert (Hf2 : fexp prec emax (prec + (e + k)) - (e + k) = 0) by (unfold fexp; lia).
  rewrite Hf2. cbn [shr shr_m].
  destruct (Z.leb_spec (e + k) (emax - prec)); [reflexivity | lia].
Qed.
End Rounding.

(** * Numbers represented by floats

    The operations of the source are exact on the numbers [value] meets:
    each lemma gives the integer and the exponent of the result. *)

Lemma pow2_pos (k : Z) : 0 <= k -> 0 < 2 ^ k.
Proof. intros; apply Z.pow_pos_nonneg; lia. Qed.

Lemma pow2_ge_2 (k : Z) : 0 < k -> 2 <= 2 ^ k.
Proof.
  intros H. replace k with (Z.succ (k - 1)) by lia.
  rewrite Z.pow_succ_r by lia. pose proof (pow2_pos (k - 1)). lia.
Qed.

Lemma pow2_split (a b : Z) : 0 <= a -> 0 <= b -> 2 ^ (a + b) = 2 ^ a * 2 ^ b.
Proof. intros; apply Z.pow_add_r; assumption. Qed.

Lemma pow2_lt_inv (a b : Z) : 0 <= b -> 2 ^ a < 2 ^ b -> a < b.
Proof. intros Hb H. apply (Z.pow_lt_mono_r_iff 2); [lia | assumption | assumption]. Qed.

Lemma normalize_exists (T : Z) :
  0 < T < 2 ^ 53 ->
  exists (M : positive) (c : Z),
    0 <= c <= 52 /\ Zpos M = T * 2 ^ c /\ Zpos (digits2_pos M) = 53.
Proof.
  intros [H0 H1]. destruct T as [|t|t]; try lia.
  pose proof (digits2_bounds t) as B.
  set (d := Zpos (digits2_pos t)) in *.
  assert (Hd : 1 <= d <= 53).
  { split; [unfold d; lia|].
    assert (d - 1 < 53); [|lia]. apply pow2_lt_inv; lia. }
  assert (P : 2 ^ (d - 1) * 2 ^ (53 - d) = 2 ^ 52).
  { rewrite <- pow2_split by lia. f_equal. lia. }
  assert (P' : 2 ^ d * 2 ^ (53 - d) = 2 ^ 53).
  { rewrite <- pow2_split by lia. f_equal. lia. }
  pose proof (pow2_pos (53 - d) ltac:(lia)) as Q.
  assert (R : 2 ^ 52 <= Zpos t * 2 ^ (53 - d) < 2 ^ 53) by nia.
  exists (Z.to_pos (Zpos t * 2 ^ (53 - d))), (53 - d).
  rewrite Z2Pos.id by lia.
  split; [lia|]. split; [reflexivity|].
  apply digits2_unique. rewrite Z2Pos.id by lia. exact R.
Qed.

Lemma round_aux_value (s : bool) (p : positive) (e T j : Z) :
  0 < T < 2 ^ 53 -> e <= j -> Zpos p = T * 2 ^ (j - e) -> 2 ^ 52 <= Zpos p ->
  -1022 <= j <= 971 ->
  represents (binary_round_aux prec64 emax64 s (Zpos p) e loc_Exact) s T j.
Proof.
  intros HT Hej Hp Hlow Hj.
  destruct (normalize_exists T HT) as (M & c & Hc & HM & HdM).
  assert (Hk : 0 <= j - c - e).
  { destruct (Z.lt_ge_cases (j - c - e) 0) as [Hneg|]; [exfalso|assumption].
    pose proof (digits2_bounds M) as B. rewrite HdM in B.
    assert (X : 2 ^ c = 2 ^ (j - e) * 2 ^ (c - (j - e))).
    { rewrite <- pow2_split by lia. f_equal. lia. }
    pose proof (pow2_ge_2 (c - (j - e)) ltac:(lia)) as G.
    rewrite HM, X in B. rewrite Hp in Hlow.
    revert B Hlow G. generalize (2 ^ (j - e)) (2 ^ (c - (j - e))). intros; nia. }
  assert (Hpm : Zpos p = Zpos M * 2 ^ (j - c - e)).
  { rewrite Hp, HM, <- Z.mul_assoc, <- pow2_split by lia. do 2 f_equal. lia. }
  rewrite (binary_round_aux_exact prec64 emax64 s p e M (j - c - e) Hpm Hk HdM)
    by (unfold emin, prec64, emax64; lia).
  right. exists M, (e + (j - c - e)). repeat split; try lia.
  rewrite HM. do 2 f_equal. lia.
Qed.

Lemma round_value_large (s : bool) (p : positive) (e T j : Z) :
  0 < T < 2 ^ 53 -> e <= j -> Zpos p = T * 2 ^ (j - e) -> 2 ^ 52 <= Zpos p ->
  -1074 <= e -> -1022 <= j <= 971 ->
  represents (binary_round prec64 emax64 s p e) s T j.
Proof.
  intros HT Hej Hp Hlow He Hj.
  pose proof (digits2_bounds p) as B.
  unfold binary_round, shl_align.
  set (d := Zpos (digits2_pos p)) in *.
  assert (Hd : 53 <= d).
  { assert (52 < d); [|lia]. apply pow2_lt_inv; [unfold d|]; lia. }
  assert (Hf : 0 <= fexp prec64 emax64 (d + e) - e).
  { unfold fexp, emin, prec64, emax64. lia. }
  destruct (fexp prec64 emax64 (d + e) - e) eqn:E; try lia;
    apply round_aux_value; try assumption; lia.
Qed.

Lemma round_value (s : bool) (p : positive) (e T j : Z) :
  0 < T < 2 ^ 53 -> e <= j -> Zpos p = T * 2 ^ (j - e) ->
  -1021 <= e -> j <= 971 ->
  represents (binary_round prec64 emax64 s p e) s T j.
Proof.
  intros HT Hej Hp He Hj.
  pose proof (digits2_bounds p) as B.
  unfold binary_round, shl_align.
  set (d := Zpos (digits2_pos p)) in *.
  assert (Hd : 1 <= d) by (unfold d; lia).
  assert (Hdj : d + e - 53 <= j).
  { assert (d - 1 < 53 + (j - e)); [|lia]. apply pow2_lt_inv; [lia|].
    rewrite pow2_split by lia. pose proof (pow2_pos (j - e) ltac:(lia)). nia. }
  destruct (Z.lt_ge_cases d 53) as [Hlt | Hge].
  - assert (Hfe : fexp prec64 emax64 (d + e) = d + e - 53).
    { unfold fexp, emin, prec64, emax64. lia. }
    rewrite Hfe. replace (d + e - 53 - e) with (Zneg (Z.to_pos (53 - d)))
      by (rewrite <- Pos2Z.opp_pos, Z2Pos.id by lia; lia).
    assert (P : 2 ^ (d - 1) * 2 ^ (53 - d) = 2 ^ 52).
    { rewrite <- pow2_split by lia. f_equal. lia. }
    pose proof (pow2_pos (53 - d) ltac:(lia)) as Q.
    apply round_aux_value; try assumption; try lia.
    + rewrite iter_xO_Z, Z2Pos.id, Hp, <- Z.mul_assoc, <- pow2_split by lia.
      do 2 f_equal. lia.
    + rewrite iter_xO_Z, Z2Pos.id by lia. nia.
  - assert (Hlow : 2 ^ 52 <= Zpos p).
    { apply Z.le_trans with (2 ^ (d - 1)); [|lia]. apply Z.pow_le_mono_r; lia. }
    assert (Hf : 0 <= fexp prec64 emax64 (d + e) - e).
    { unfold fexp, emin, prec64, emax64. lia. }
    destruct (fexp prec64 emax64 (d + e) - e) eqn:E; try lia;
      apply round_aux_value; try assumption; lia.
Qed.

Lemma represents_float_of_int (a : Z) :
  0 <= a < 2 ^ 53 -> represents (float_of_int a) false a 0.
Proof.
  intros Ha. unfold float_of_int, binary_normalize.
  destruct a as [|p|p]; [left; split; reflexivity | | lia].
  apply round_value; lia.
Qed.

Lemma represents_fneg (f : float) (s : bool) (T j : Z) :
  represents f s T j -> represents (fneg f) (negb s) T j.
Proof.
  intros [[-> ->] | (M & E & -> & H)].
  - left. split; reflexivity.
  - right. exists M, E. split; [reflexivity | exact H].
Qed.

(** The same number with a larger integer part and a smaller exponent. *)
Lemma represents_scale_down (f : float) (s : bool) (T j c : Z) :
  represents f s T j -> 0 <= c -> T * 2 ^ c < 2 ^ 53 ->
  represents f s (T * 2 ^ c) (j - c).
Proof.
  intros [[-> ->] | (M & E & -> & HdM & HE & HEj & HM)] Hc HT.
  - left. split; [reflexivity | reflexivity].
  - right. exists M, E. split; [reflexivity|]. split; [assumption|]. split; [assumption|].
    pose proof (digits2_bounds M) as B. rewrite HdM in B.
    assert (HEc : E <= j - c).
    { destruct (Z.lt_ge_cases (j - c) E) as [Hneg|]; [exfalso | assumption].
      assert (X : 2 ^ c = 2 ^ (j - E) * 2 ^ (c - (j - E))).
      { rewrite <- pow2_split by lia. f_equal. lia. }
      pose proof (pow2_ge_2 (c - (j - E)) ltac:(lia)) as G.
      rewrite X in HT. rewrite HM in B.
      revert B HT G. generalize (2 ^ (j - E)) (2 ^ (c - (j - E))). intros; nia. }
    split; [assumption|].
    rewrite HM, <- Z.mul_assoc, <- pow2_split by lia. do 2 f_equal. lia.
Qed.

Lemma represents_scale_up (f : float) (s : bool) (T j c : Z) :
  represents f s (T * 2 ^ c) j -> 0 <= c -> represents f s T (j + c).
Proof.
  intros [[H0 ->] | (M & E & -> & HdM & HE & HEj & HM)] Hc.
  - left. split; [|reflexivity]. pose proof (pow2_pos c Hc). nia.
  - right. exists M, E. repeat split; try assumption; try lia.
    rewrite HM, <- Z.mul_assoc, <- pow2_split by lia. do 2 f_equal. lia.
Qed.

Lemma represents_positive (s : bool) (M : positive) (E T j : Z) :
  represents (S754_finite s M E) s T j -> 0 < T.
Proof.
  intros [[_ H] | (M' & E' & _ & _ & _ & HEj & HM)]; [discriminate|].
  pose proof (pow2_pos (j - E') ltac:(lia)). nia.
Qed.

Lemma represents_fadd (f1 f2 : float) (T1 T2 j : Z) :
  represents f1 false T1 j -> represents f2 false T2 j ->
  0 <= T1 -> 0 <= T2 -> T1 + T2 < 2 ^ 53 -> -1022 <= j <= 971 ->
  represents (fadd f1 f2) false (T1 + T2) j.
Proof.
  intros [[-> ->] | (M1 & E1 & -> & HdM1 & HE1 & HEj1 & HM1)]
         [[-> ->] | (M2 & E2 & -> & HdM2 & HE2 & HEj2 & HM2)] H1 H2 Hs Hj.
  - left. split; reflexivity.
  - right. exists M2, E2. repeat split; try assumption; lia.
  - right. exists M1, E1. rewrite Z.add_0_r. repeat split; try assumption; lia.
  - unfold fadd, SFadd, shl_align.
    pose proof (digits2_bounds M1) as B1. rewrite HdM1 in B1.
    pose proof (digits2_bounds M2) as B2. rewrite HdM2 in B2.
    set (ez := Z.min E1 E2).
    assert (A1 : Zpos (fst (match ez - E1 with
                            | Zneg d => (Pos.iter xO M1 d, ez)
                            | _ => (M1, E1) end)) = Zpos M1 * 2 ^ (E1 - ez)).
    { destruct (ez - E1) eqn:Q; cbn [fst].
      - replace (E1 - ez) with 0 by lia. lia.
      - unfold ez in Q. lia.
      - rewrite iter_xO_Z. do 2 f_equal. lia. }
    assert (A2 : Zpos (fst (match ez - E2 with
                            | Zneg d => (Pos.iter xO M2 d, ez)
                            | _ => (M2, E2) end)) = Zpos M2 * 2 ^ (E2 - ez)).
    { destruct (ez - E2) eqn:Q; cbn [fst].
      - replace (E2 - ez) with 0 by lia. lia.
      - unfold ez in Q. lia.
      - rewrite iter_xO_Z. do 2 f_equal. lia. }
    cbn [cond_Zopp]. rewrite A1, A2.
    assert (S1 : Zpos M1 * 2 ^ (E1 - ez) = T1 * 2 ^ (j - ez)).
    { rewrite HM1, <- Z.mul_assoc, <- pow2_split by (unfold ez; lia).
      do 2 f_equal. lia. }
    assert (S2 : Zpos M2 * 2 ^ (E2 - ez) = T2 * 2 ^ (j - ez)).
    { rewrite HM2, <- Z.mul_assoc, <- pow2_split by (unfold ez; lia).
      do 2 f_equal. lia. }
    pose proof (pow2_pos (E1 - ez) ltac:(unfold ez; lia)) as P1.
    pose proof (pow2_pos (E2 - ez) ltac:(unfold ez; lia)) as P2.
    assert (Hsum : 2 ^ 52 <= Zpos M1 * 2 ^ (E1 - ez) + Zpos M2 * 2 ^ (E2 - ez)) by nia.
    destruct (Zpos M1 * 2 ^ (E1 - ez) + Zpos M2 * 2 ^ (E2 - ez)) as [|q|q] eqn:Q;
      try lia.
    cbn [binary_normalize].
    assert (T1pos : 0 < T1 + T2).
    { pose proof (pow2_pos (j - E1) ltac:(lia)). nia. }
    assert (Hez : -1074 <= ez <= j) by (unfold ez; lia).
    apply round_value_large; lia.
Qed.

Lemma represents_fmul (f1 f2 : float) (s1 s2 : bool) (T1 T2 j1 j2 : Z) :
  represents f1 s1 T1 j1 -> represents f2 s2 T2 j2 ->
  T1 * T2 < 2 ^ 53 -> -1022 <= j1 + j2 <= 971 ->
  represents (fmul f1 f2) (xorb s1 s2) (T1 * T2) (j1 + j2).
Proof.
  intros [[-> ->] | (M1 & E1 & -> & HdM1 & HE1 & HEj1 & HM1)]
         [[-> ->] | (M2 & E2 & -> & HdM2 & HE2 & HEj2 & HM2)] Hs Hj.
  - left. split; reflexivity.
  - left. split; reflexivity.
  - left. split; [lia | reflexivity].
  - unfold fmul, SFmul.
    pose proof (digits2_bounds M1) as B1. rewrite HdM1 in B1.
    pose proof (digits2_bounds M2) as B2. rewrite HdM2 in B2.
    pose proof (pow2_pos (j1 - E1) ltac:(lia)) as P1.
    pose proof (pow2_pos (j2 - E2) ltac:(lia)) as P2.
    assert (HT1 : 0 < T1) by nia.
    assert (HT2 : 0 < T2) by nia.
    pose proof (Z.mul_pos_pos T1 T2 HT1 HT2) as HT12.
    apply round_aux_value; try lia.
    rewrite Pos2Z.inj_mul, HM1, HM2.
    replace (j1 + j2 - (E1 + E2)) with ((j1 - E1) + (j2 - E2)) by lia.
    rewrite pow2_split by lia. ring.
Qed.

Lemma represents_fdiv_256 (f : float) (s : bool) (T j : Z) :
  represents f s T j -> -1000 <= j <= 971 ->
  represents (fdiv f f256_0) s T (j - 8).
Proof.
  intros [[-> ->] | (M & E & -> & HdM & HE & HEj & HM)] Hj.
  - left. split; [reflexivity|]. cbn. rewrite xorb_false_r. reflexivity.
  - pose proof (digits2_bounds M) as B. rewrite HdM in B.
    pose proof (pow2_pos (j - E) ltac:(lia)) as P.
    assert (HTpos : 0 < T) by nia.
    assert (HElow : -1060 <= E).
    { assert (j - E < 53); [|lia]. apply pow2_lt_inv; [lia|]. nia. }
    assert (Hcore : SFdiv_core_binary prec64 emax64 (Zpos M) E
                      (Zpos 4503599627370496) (-44)
                    = (Zpos (xO M), E - 9, loc_Exact)).
    { unfold SFdiv_core_binary. cbn [Zdigits2]. rewrite HdM.
      change (Zpos (digits2_pos 4503599627370496)) with 53.
      replace (fexp prec64 emax64 (53 + E - (53 + -44))) with (E - 9)
        by (unfold fexp, emin, prec64, emax64; lia).
      replace (Z.min (E - 9) (E - -44)) with (E - 9) by lia.
      replace (E - -44 - (E - 9)) with 53 by lia.
      cbv iota. rewrite Z.shiftl_mul_pow2 by lia.
      destruct (Z.div_eucl (Zpos M * 2 ^ 53) (Zpos 4503599627370496))
        as [q r] eqn:D.
      assert (Hq : q = Zpos M * 2 ^ 53 / 4503599627370496)
        by (unfold Z.div; rewrite D; reflexivity).
      assert (Hr : r = (Zpos M * 2 ^ 53) mod 4503599627370496)
        by (unfold Z.modulo; rewrite D; reflexivity).
      replace (Zpos M * 2 ^ 53) with (Zpos (xO M) * 4503599627370496) in Hq, Hr by lia.
      rewrite Z.div_mul in Hq by lia. rewrite Z.mod_mul in Hr by lia.
      subst q r. reflexivity. }
    unfold fdiv, f256_0, SFdiv. rewrite Hcore, xorb_false_r.
    apply round_aux_value; try lia.
    replace (j - 8 - (E - 9)) with (Z.succ (j - E)) by lia.
    rewrite Z.pow_succ_r by lia. lia.
Qed.

Lemma represents_explicit (f : float) (s : bool) (T j : Z) :
  represents f s T j -> 2 ^ 52 <= T < 2 ^ 53 ->
  f = S754_finite s (Z.to_pos T) j.
Proof.
  intros [[-> _] | (M & E & -> & HdM & HE & HEj & HM)] HT; [lia|].
  pose proof (digits2_bounds M) as B. rewrite HdM in B.
  assert (E = j).
  { destruct (Z.eq_dec E j) as [|Hne]; [assumption | exfalso].
    pose proof (pow2_ge_2 (j - E) ltac:(lia)). nia. }
  subst E. rewrite Z.sub_diag, Z.pow_0_r, Z.mul_1_r in HM.
  rewrite <- HM. reflexivity.
Qed.

Lemma represents_finite (f : float) (s : bool) (T j : Z) :
  represents f s T j -> is_finite f = true.
Proof. intros [[_ ->] | (M & E & -> & _)]; reflexivity. Qed.

Lemma pow_2_0_represents (n : Z) :
  -1021 <= n <= 971 ->
  exists p : float, pow_2_0 n = Ok p /\ represents p false 1 n.
Proof.
  intros Hn. unfold pow_2_0, binary_normalize.
  assert (R : represents (binary_round prec64 emax64 false 1 n) false 1 n).
  { apply round_value; try lia. rewrite Z.sub_diag. reflexivity. }
  destruct R as [[? _] | (M & E & Hf & H)]; [lia|].
  rewrite Hf. exists (S754_finite false M E). split; [reflexivity|].
  right. exists M, E. split; [reflexivity | exact H].
Qed.

Lemma represents_f1_0 : represents f1_0 false 1 0.
Proof.
  right. exists 4503599627370496%positive, (-52).
  repeat split; try reflexivity; try lia.
Qed.

Lemma represents_f2_0 : represents f2_0 false 1 1.
Proof.
  right. exists 4503599627370496%positive, (-51).
  repeat split; try reflexivity; try lia.
Qed.

(** * Bytes and [struct] *)

Lemma byte_val_range (b : byte) : 0 <= byte_val b <= 255.
Proof. unfold byte_val. pose proof (Byte.to_N_bounded b). lia. Qed.

Lemma byte_val_of_Z (z : Z) : byte_val (byte_of_Z z) = z mod 256.
Proof.
  unfold byte_val, byte_of_Z.
  pose proof (Z.mod_pos_bound z 256 ltac:(lia)) as B.
  destruct (Byte.of_N (Z.to_N (z mod 256))) as [b|] eqn:E.
  - apply Byte.to_of_N in E. rewrite E. lia.
  - apply Byte.of_N_None_iff in E. lia.
Qed.

Lemma byte_of_Z_val (b : byte) : byte_of_Z (byte_val b) = b.
Proof.
  unfold byte_of_Z, byte_val. pose proof (Byte.to_N_bounded b) as B.
  rewrite Z.mod_small, N2Z.id, Byte.of_to_N by lia. reflexivity.
Qed.

Lemma length_le_bytes (n : nat) (x : Z) : length (le_bytes n x) = n.
Proof. revert x; induction n as [|n IH]; intros x; cbn; [|rewrite IH]; reflexivity. Qed.

Lemma length_be_bytes (n : nat) (x : Z) : length (be_bytes n x) = n.
Proof. unfold be_bytes. rewrite length_rev. apply length_le_bytes. Qed.

Lemma be_uint_aux_app (l1 l2 : bytes) (acc : Z) :
  be_uint_aux acc (l1 ++ l2) = be_uint_aux (be_uint_aux acc l1) l2.
Proof. revert acc; induction l1 as [|b l1 IH]; intros acc; cbn; [|rewrite IH]; reflexivity. Qed.

Lemma be_uint_be_bytes (n : nat) (x : Z) :
  be_uint (be_bytes n x) = x mod 256 ^ Z.of_nat n.
Proof.
  revert x. induction n as [|n IH]; intros x.
  - cbn. rewrite Z.mod_1_r. reflexivity.
  - unfold be_uint, be_bytes in *. cbn [le_bytes rev].
    rewrite be_uint_aux_app, IH. cbn [be_uint_aux].
    rewrite byte_val_of_Z, Nat2Z.inj_succ, Z.pow_succ_r by lia.
    assert (P : 0 < 256 ^ Z.of_nat n) by (apply Z.pow_pos_nonneg; lia).
    rewrite (Z.rem_mul_r x 256 (256 ^ Z.of_nat n)) by lia. lia.
Qed.

Lemma be_uint_aux_bound (l : bytes) (acc : Z) :
  0 <= acc ->
  acc * 256 ^ Z.of_nat (length l) <= be_uint_aux acc l
    < (acc + 1) * 256 ^ Z.of_nat (length l).
Proof.
  revert acc. induction l as [|b l IH]; intros acc Hacc.
  - cbn. lia.
  - cbn [be_uint_aux length]. pose proof (byte_val_range b) as B.
    specialize (IH (acc * 256 + byte_val b) ltac:(lia)).
    rewrite Nat2Z.inj_succ, Z.pow_succ_r by lia.
    assert (P : 0 < 256 ^ Z.of_nat (length l)) by (apply Z.pow_pos_nonneg; lia).
    nia.
Qed.

Lemma pack_I_unpack_f (x : Z) :
  0 <= x < 2 ^ 32 ->
  rbind (pack_I x) unpack_f = Ok (double_of_single (float_of_bits 23 8 x)).
Proof.
  intros H. unfold pack_I, unpack_f, rbind.
  destruct (Z.leb_spec 0 x); [|lia]. destruct (Z.ltb_spec x (2 ^ 32)); [|lia].
  cbn [andb]. rewrite length_be_bytes, be_uint_be_bytes. cbn [Nat.eqb].
  rewrite Z.mod_small by (cbn; lia). reflexivity.
Qed.

Lemma pack_Q_unpack_d (x : Z) :
  0 <= x < 2 ^ 64 ->
  rbind (pack_Q x) unpack_d = Ok (float_of_bits 52 11 x).
Proof.
  intros H. unfold pack_Q, unpack_d, rbind.
  destruct (Z.leb_spec 0 x); [|lia]. destruct (Z.ltb_spec x (2 ^ 64)); [|lia].
  cbn [andb]. rewrite length_be_bytes, be_uint_be_bytes. cbn [Nat.eqb].
  rewrite Z.mod_small by (cbn; lia). reflexivity.
Qed.

Lemma pack_I_out_of_range (x : Z) :
  ~ 0 <= x < 2 ^ 32 -> pack_I x = Raise StructError.
Proof.
  intros H. unfold pack_I.
  destruct (Z.leb_spec 0 x); destruct (Z.ltb_spec x (2 ^ 32)); cbn [andb];
    try reflexivity; lia.
Qed.

(** The three fields of a bit pattern. *)
Lemma bit_fields (mw ew s e m : Z) :
  0 <= mw -> 0 <= ew -> 0 <= s <= 1 -> 0 <= e < 2 ^ ew -> 0 <= m < 2 ^ mw ->
  let x := s * 2 ^ (mw + ew) + e * 2 ^ mw + m in
  Z.testbit x (mw + ew) = (s =? 1)
  /\ (x / 2 ^ mw) mod 2 ^ ew = e
  /\ x mod 2 ^ mw = m.
Proof.
  intros Hmw Hew Hs He Hm x.
  assert (Pm : 0 < 2 ^ mw) by (apply pow2_pos; lia).
  assert (Pe : 0 < 2 ^ ew) by (apply pow2_pos; lia).
  assert (X : x = (s * 2 ^ ew + e) * 2 ^ mw + m).
  { unfold x. rewrite (Z.add_comm mw ew), pow2_split by lia. ring. }
  assert (D : x / 2 ^ mw = s * 2 ^ ew + e).
  { rewrite X, Z.div_add_l, Z.div_small by lia. lia. }
  split; [|split].
  - assert (Q : x / 2 ^ (mw + ew) = s).
    { rewrite pow2_split, <- Z.div_div, D, Z.div_add_l, Z.div_small by lia. lia. }
    pose proof (Z.testbit_spec' x (mw + ew) ltac:(lia)) as T. rewrite Q in T.
    destruct (Z.testbit x (mw + ew)); cbn [Z.b2z] in T;
      destruct (Z.eqb_spec s 1); try reflexivity;
      rewrite Z.mod_small in T by lia; lia.
  - rewrite D, Z.add_comm, Z.mod_add, Z.mod_small by lia. reflexivity.
  - rewrite X, Z.add_comm, Z.mod_add, Z.mod_small by lia. reflexivity.
Qed.

(** * The decoder *)

Lemma sign_bit_of_byte (b : byte) :
  Z.shiftr (Z.land (byte_val b) 128) 7 = Z.b2z (Z.testbit (byte_val b) 7).
Proof. destruct b; reflexivity. Qed.

Lemma sign_bit_div (b : byte) :
  Z.b2z (Z.testbit (byte_val b) 7) = byte_val b / 128.
Proof. destruct b; reflexivity. Qed.

Lemma consistent_inv (self : real48) :
  consistent self ->
  exists b0 b1 b2 b3 b4 b5 : byte,
    self = mk_real48 [b0; b1; b2; b3; b4; b5] (byte_val b0 / 128) (byte_val b5).
Proof.
  destruct self as [bs s e]. unfold consistent. cbn [byte_str sign exp].
  intros (Hl & Hs & He).
  destruct bs as [|b0 [|b1 [|b2 [|b3 [|b4 [|b5 [|b6 bs]]]]]]]; try discriminate Hl.
  exists b0, b1, b2, b3, b4, b5.
  unfold byte_at in Hs, He. cbn [nth] in Hs, He.
  rewrite Hs, He, sign_bit_div. reflexivity.
Qed.

Lemma init_consistent (arg : pyarg) (self : real48) :
  init arg = Ok self -> consistent self.
Proof.
  destruct arg as [r48|]; [|discriminate]. unfold init.
  destruct (Nat.eqb (length r48) 6) eqn:L; cbn [negb]; [|discriminate].
  apply Nat.eqb_eq in L.
  destruct r48 as [|b0 [|b1 [|b2 [|b3 [|b4 [|b5 [|b6 bs]]]]]]]; try discriminate L.
  cbv [extract_sign extract_exponent getitem nth_error rbind].
  intros H. injection H as <-.
  unfold consistent, byte_at. cbn [byte_str sign exp nth length].
  rewrite sign_bit_of_byte. repeat split.
Qed.

Lemma init_six (r48 : bytes) :
  length r48 = 6%nat ->
  init (ArgBytes r48)
  = Ok (mk_real48 r48 (Z.b2z (Z.testbit (byte_at r48 0) 7)) (byte_at r48 5)).
Proof.
  intros L.
  destruct r48 as [|b0 [|b1 [|b2 [|b3 [|b4 [|b5 [|b6 bs]]]]]]]; try discriminate L.
  cbv [init length Nat.eqb negb extract_sign extract_exponent getitem nth_error rbind].
  unfold byte_at. cbn [nth]. rewrite sign_bit_of_byte. reflexivity.
Qed.

Lemma reverse_bytes_eq (b0 b1 b2 b3 b4 b5 : byte) (s e : Z) :
  reverse_bytes (mk_real48 [b0; b1; b2; b3; b4; b5] s e)
  = (mk_real48 [b5; b4; b3; b2; b1; b0] (byte_val b5 / 128) (byte_val b0), Ok tt).
Proof.
  cbv [reverse_bytes mbind get_byte_str set_byte_str set_sign set_exp lift
       extract_sign extract_exponent getitem nth_error rbind rev app
       byte_str sign exp].
  rewrite sign_bit_of_byte, sign_bit_div. reflexivity.
Qed.

Lemma to_single_eq (b0 b1 b2 b3 b4 b5 : byte) (s e : Z) :
  to_single (mk_real48 [b0; b1; b2; b3; b4; b5] s e)
  = (mk_real48 [b0; b1; b2; b3; b4; b5] s e,
     if e =? 0 then Ok f0_0
     else rbind (pack_I (Z.shiftl s 31 + Z.shiftl (e - 2) 23
                         + (Z.shiftl (byte_val b0 mod 128) 16
                            + Z.shiftl (byte_val b1) 8 + byte_val b2)))
                unpack_f).
Proof.
  cbv [to_single mbind self_byte get_byte_str lift getitem nth_error mret
       get_exp get_sign exp sign byte_str].
  destruct (e =? 0); [reflexivity|]. destruct (e =? 255);
    destruct (pack_I _); reflexivity.
Qed.

Lemma to_double_eq (b0 b1 b2 b3 b4 b5 : byte) (s e : Z) :
  to_double (mk_real48 [b0; b1; b2; b3; b4; b5] s e)
  = (mk_real48 [b0; b1; b2; b3; b4; b5] s e,
     if e =? 0 then Ok f0_0
     else rbind (pack_Q (Z.shiftl s 63 + Z.shiftl (e + 894) 52
                         + Z.shiftl (Z.shiftl (byte_val b0 mod 128) 32
                                     + Z.shiftl (byte_val b1) 24
                                     + Z.shiftl (byte_val b2) 16
                                     + Z.shiftl (byte_val b3) 8
                                     + byte_val b4) 13))
                unpack_d).
Proof.
  cbv [to_double mbind self_byte get_byte_str lift getitem nth_error mret
       get_exp get_sign exp sign byte_str].
  destruct (e =? 0); [reflexivity|]. destruct (e =? 255);
    destruct (pack_Q _); reflexivity.
Qed.

Lemma int_of_sign_division (b : byte) :
  int_of_float (fdiv (float_of_int (byte_val b)) (float_of_int 128))
  = Ok (byte_val b / 128).
Proof. destruct b; vm_compute; reflexivity. Qed.

Lemma value_eq (b0 b1 b2 b3 b4 b5 : byte) (s e : Z) :
  value (mk_real48 [b0; b1; b2; b3; b4; b5] s e)
  = (mk_real48 [b0; b1; b2; b3; b4; b5] s e,
     let mant :=
       if byte_val b5 =? 0 then f0_0
       else fadd f1_0
              (fdiv (fmul f2_0 (fraction (byte_val b0) (byte_val b1) (byte_val b2)
                                         (byte_val b3) (byte_val b4))) f256_0) in
     let mant := if byte_val b0 / 128 =? 1 then fneg mant else mant in
     rbind (pow_2_0 (byte_val b5 - 129)) (fun p => Ok (fmul p mant))).
Proof.
  cbv [value mbind self_byte get_byte_str lift getitem nth_error mret
       get_exp get_sign exp sign byte_str].
  rewrite int_of_sign_division.
  destruct (pow_2_0 (byte_val b5 - 129)); reflexivity.
Qed.

Lemma mantissa39_range (r48 : bytes) : 0 <= mantissa39 r48 < 2 ^ 39.
Proof.
  unfold mantissa39, byte_at.
  pose proof (byte_val_range (nth 0 r48 x00)).
  pose proof (byte_val_range (nth 1 r48 x00)).
  pose proof (byte_val_range (nth 2 r48 x00)).
  pose proof (byte_val_range (nth 3 r48 x00)).
  pose proof (byte_val_range (nth 4 r48 x00)).
  pose proof (Z.mod_pos_bound (byte_val (nth 0 r48 x00)) 128 ltac:(lia)).
  lia.
Qed.

Lemma represents_ext (f : float) (s : bool) (T T' j j' : Z) :
  represents f s T j -> T = T' -> j = j' -> represents f s T' j'.
Proof. intros H -> ->. exact H. Qed.

(** One step of the nested expansion: [a + x / 256.0]. *)
Lemma represents_step (x : float) (a T k : Z) :
  represents x false T (- (8 * k)) -> 0 <= k <= 3 ->
  0 <= a <= 255 -> 0 <= T < 2 ^ (8 * (k + 1)) ->
  represents (fadd (float_of_int a) (fdiv x f256_0)) false
    (a * 2 ^ (8 * (k + 1)) + T) (- (8 * (k + 1))).
Proof.
  intros Hx Hk Ha HT.
  assert (P : 2 ^ (8 * (k + 1)) = 256 * 2 ^ (8 * k)).
  { replace (8 * (k + 1)) with (8 + 8 * k) by lia. rewrite pow2_split by lia. reflexivity. }
  assert (B : 2 ^ (8 * k) <= 2 ^ 32) by (apply Z.pow_le_mono_r; lia).
  pose proof (pow2_pos (8 * k) ltac:(lia)) as B'.
  assert (A : 0 <= a * 2 ^ (8 * (k + 1)) <= 255 * 2 ^ 40).
  { rewrite P. revert B B'. generalize (2 ^ (8 * k)). intros; nia. }
  apply represents_fadd; try lia.
  - apply represents_ext with (T := a * 2 ^ (8 * (k + 1))) (j := 0 - 8 * (k + 1));
      [|reflexivity|lia].
    apply represents_scale_down; [|lia|lia].
    apply represents_float_of_int. lia.
  - apply represents_ext with (T := T) (j := - (8 * k) - 8); [|reflexivity|lia].
    apply represents_fdiv_256; [assumption | lia].
Qed.

Lemma represents_fraction (b0 b1 b2 b3 b4 b5 : byte) :
  represents
    (fraction (byte_val b0) (byte_val b1) (byte_val b2) (byte_val b3) (byte_val b4))
    false (mantissa39 [b0; b1; b2; b3; b4; b5]) (-32).
Proof.
  pose proof (byte_val_range b0) as R0. pose proof (byte_val_range b1) as R1.
  pose proof (byte_val_range b2) as R2. pose proof (byte_val_range b3) as R3.
  pose proof (byte_val_range b4) as R4.
  pose proof (Z.mod_pos_bound (byte_val b0) 128 ltac:(lia)) as R0'.
  unfold fraction, mantissa39, byte_at. cbn [nth].
  assert (S0 : represents (float_of_int (byte_val b4)) false (byte_val b4) (- (8 * 0)))
    by (apply represents_float_of_int; lia).
  pose proof (represents_step _ (byte_val b3) _ 0 S0 ltac:(lia) R3 ltac:(lia)) as S1.
  pose proof (represents_step _ (byte_val b2) _ 1 S1 ltac:(lia) R2 ltac:(lia)) as S2.
  pose proof (represents_step _ (byte_val b1) _ 2 S2 ltac:(lia) R1 ltac:(lia)) as S3.
  pose proof (represents_step _ (byte_val b0 mod 128) _ 3 S3 ltac:(lia) ltac:(lia)
                ltac:(lia)) as S4.
  eapply represents_ext; [exact S4 | lia | lia].
Qed.

Lemma represents_mantissa (b0 b1 b2 b3 b4 b5 : byte) :
  represents
    (fadd f1_0
       (fdiv (fmul f2_0 (fraction (byte_val b0) (byte_val b1) (byte_val b2)
                                  (byte_val b3) (byte_val b4))) f256_0))
    false (2 ^ 39 + mantissa39 [b0; b1; b2; b3; b4; b5]) (-39).
Proof.
  pose proof (mantissa39_range [b0; b1; b2; b3; b4; b5]) as R.
  apply represents_fadd; try lia.
  - apply represents_ext with (T := 1 * 2 ^ 39) (j := 0 - 39); [|lia|lia].
    apply represents_scale_down; [exact represents_f1_0 | lia | lia].
  - apply represents_ext with (T := 1 * mantissa39 [b0; b1; b2; b3; b4; b5])
                              (j := 1 + -32 - 8); [|lia|lia].
    apply represents_fdiv_256; [|lia].
    apply (represents_fmul f2_0 _ false false 1 _ 1 (-32) represents_f2_0
             (represents_fraction b0 b1 b2 b3 b4 b5)); lia.
Qed.

Lemma sign_test (b : byte) : (byte_val b / 128 =? 1) = Z.testbit (byte_val b) 7.
Proof. destruct b; reflexivity. Qed.

Lemma value_nonzero (b0 b1 b2 b3 b4 b5 : byte) (s e : Z) :
  byte_val b5 <> 0 ->
  snd (value (mk_real48 [b0; b1; b2; b3; b4; b5] s e))
  = Ok (real48_double [b0; b1; b2; b3; b4; b5]).
Proof.
  intros H5. rewrite value_eq. cbn [snd].
  pose proof (byte_val_range b5) as R5.
  pose proof (mantissa39_range [b0; b1; b2; b3; b4; b5]) as R.
  destruct (Z.eqb_spec (byte_val b5) 0) as [|_]; [contradiction|].
  destruct (pow_2_0_represents (byte_val b5 - 129) ltac:(lia)) as (p & -> & Hp).
  cbn [rbind]. f_equal.
  pose proof (represents_mantissa b0 b1 b2 b3 b4 b5) as Hm.
  rewrite sign_test.
  set (mant := fadd f1_0 _) in *.
  assert (Hs : represents
                 (if Z.testbit (byte_val b0) 7 then fneg mant else mant)
                 (Z.testbit (byte_val b0) 7)
                 (2 ^ 39 + mantissa39 [b0; b1; b2; b3; b4; b5]) (-39)).
  { destruct (Z.testbit (byte_val b0) 7); [|exact Hm].
    exact (represents_fneg _ _ _ _ Hm). }
  pose proof (represents_fmul _ _ _ _ _ _ _ _ Hp Hs ltac:(lia) ltac:(lia)) as Hv.
  cbn [xorb] in Hv.
  pose proof (represents_scale_down _ _ _ _ 13 Hv ltac:(lia) ltac:(lia)) as Hv'.
  rewrite (represents_explicit _ _ _ _ Hv' ltac:(lia)).
  unfold real48_double, byte_at. cbn [nth].
  f_equal; [f_equal|]; lia.
Qed.

Lemma to_double_nonzero (b0 b1 b2 b3 b4 b5 : byte) :
  byte_val b5 <> 0 ->
  snd (to_double (mk_real48 [b0; b1; b2; b3; b4; b5] (byte_val b0 / 128) (byte_val b5)))
  = Ok (real48_double [b0; b1; b2; b3; b4; b5]).
Proof.
  intros H5. rewrite to_double_eq. cbn [snd].
  pose proof (byte_val_range b5) as R5.
  pose proof (byte_val_range b0) as R0. pose proof (byte_val_range b1) as R1.
  pose proof (byte_val_range b2) as R2. pose proof (byte_val_range b3) as R3.
  pose proof (byte_val_range b4) as R4.
  pose proof (mantissa39_range [b0; b1; b2; b3; b4; b5]) as R.
  destruct (Z.eqb_spec (byte_val b5) 0) as [|_]; [contradiction|].
  set (M := mantissa39 [b0; b1; b2; b3; b4; b5]) in *.
  assert (Hs : 0 <= byte_val b0 / 128 <= 1).
  { pose proof (Z.div_pos (byte_val b0) 128 ltac:(lia) ltac:(lia)).
    pose proof (Z.div_lt_upper_bound (byte_val b0) 128 2 ltac:(lia) ltac:(lia)). lia. }
  assert (Hbits : Z.shiftl (byte_val b0 / 128) 63 + Z.shiftl (byte_val b5 + 894) 52
                  + Z.shiftl (Z.shiftl (byte_val b0 mod 128) 32
                              + Z.shiftl (byte_val b1) 24 + Z.shiftl (byte_val b2) 16
                              + Z.shiftl (byte_val b3) 8 + byte_val b4) 13
                  = byte_val b0 / 128 * 2 ^ (52 + 11)
                    + (byte_val b5 + 894) * 2 ^ 52 + M * 2 ^ 13).
  { rewrite !Z.shiftl_mul_pow2 by lia. unfold M, mantissa39, byte_at. cbn [nth]. lia. }
  rewrite Hbits.
  destruct (bit_fields 52 11 (byte_val b0 / 128) (byte_val b5 + 894) (M * 2 ^ 13))
    as (F1 & F2 & F3); try lia.
  rewrite pack_Q_unpack_d by lia. f_equal.
  unfold float_of_bits. rewrite F1, F2, F3, sign_test. unfold float_of_fields.
  destruct (Z.eqb_spec (byte_val b5 + 894) 0) as [|_]; [lia|].
  destruct (Z.eqb_spec (byte_val b5 + 894) (2 ^ 11 - 1)) as [|_]; [lia|].
  unfold real48_double, byte_at. cbn [nth]. fold M.
  destruct (M * 2 ^ 13 + 2 ^ 52) as [|q|q] eqn:Q; try lia.
  f_equal; lia.
Qed.

Lemma Q_of_real48_double (r48 : bytes) :
  (Q_of_float (real48_double r48)
   == real48_number (Z.b2z (Z.testbit (byte_at r48 0) 7)) (byte_at r48 5)
        (mantissa39 r48))%Q.
Proof.
  pose proof (mantissa39_range r48) as R.
  unfold real48_double, Q_of_float, real48_number.
  rewrite Z2Pos.id by lia.
  replace (byte_at r48 5 - 181) with ((byte_at r48 5 - 129) + -52) by lia.
  rewrite Qpower_plus by discriminate.
  rewrite inject_Z_mult, inject_Z_plus.
  generalize (Qpower 2 (byte_at r48 5 - 129)). intros P.
  generalize (inject_Z (mantissa39 r48)). intros m.
  change (Qpower 2 (-52)) with (1 # 4503599627370496)%Q.
  change (Qpower 2 39) with (549755813888 # 1)%Q.
  change (inject_Z (2 ^ 39)) with (549755813888 # 1)%Q.
  change (inject_Z (2 ^ 13)) with (8192 # 1)%Q.
  destruct (Z.testbit (byte_at r48 0) 7); cbn [Z.b2z].
  - change (Qpower (-1 # 1) 1) with (-1 # 1)%Q. field.
  - change (Qpower (-1 # 1) 0) with 1%Q. field.
Qed.

(** C1. For a decoder whose exponent byte is neither 0 nor 255,
    [to_double()] and [value()] both return the binary64 number
    [(-1)^sign * 2^(exponent-129) * (1 + M/2^39)], [M] being the 39-bit
    mantissa; they are equal, hence within relative error 1e-9. *)
Theorem to_double_value_agree (self : real48) :
  consistent self ->
  byte_at (byte_str self) 5 <> 0 -> byte_at (byte_str self) 5 <> 255 ->
  exists x y : float,
    snd (to_double self) = Ok x /\ snd (value self) = Ok y
    /\ is_finite x = true /\ is_finite y = true
    /\ (Q_of_float x
        == real48_number (sign self) (exp self) (mantissa39 (byte_str self)))%Q
    /\ (Q_of_float y
        == real48_number (sign self) (exp self) (mantissa39 (byte_str self)))%Q
    /\ (Qabs (Q_of_float x - Q_of_float y)
        <= (1 # 1000000000) * Qabs (Q_of_float x))%Q
    /\ x = y.
Proof.
  intros Hc H0 _.
  destruct (consistent_inv self Hc) as (b0 & b1 & b2 & b3 & b4 & b5 & ->).
  cbn [byte_str sign exp] in *. unfold byte_at in H0. cbn [nth] in H0.
  exists (real48_double [b0; b1; b2; b3; b4; b5]),
         (real48_double [b0; b1; b2; b3; b4; b5]).
  assert (HQ : (Q_of_float (real48_double [b0; b1; b2; b3; b4; b5])
                == real48_number (byte_val b0 / 128) (byte_val b5)
                     (mantissa39 [b0; b1; b2; b3; b4; b5]))%Q).
  { rewrite Q_of_real48_double. unfold byte_at. cbn [nth].
    rewrite sign_bit_div. reflexivity. }
  split; [apply to_double_nonzero; assumption|].
  split; [apply value_nonzero; assumption|].
  split; [reflexivity|]. split; [reflexivity|].
  split; [exact HQ|]. split; [exact HQ|].
  split; [|reflexivity].
  setoid_replace (Q_of_float (real48_double [b0; b1; b2; b3; b4; b5])
                  - Q_of_float (real48_double [b0; b1; b2; b3; b4; b5]))%Q
    with 0%Q by ring.
  apply Qmult_le_0_compat; [discriminate | apply Qabs_nonneg].
Qed.

Lemma to_double_value_agree_witness :
  exists x y : float,
    snd (to_double (mk_real48 (bytes_of [18; 52; 86; 120; 154; 200]) 0 200)) = Ok x
    /\ snd (value (mk_real48 (bytes_of [18; 52; 86; 120; 154; 200]) 0 200)) = Ok y
    /\ x = y.
Proof.
  destruct (to_double_value_agree
              (mk_real48 (bytes_of [18; 52; 86; 120; 154; 200]) 0 200))
    as (x & y & Hx & Hy & _ & _ & _ & _ & _ & Hxy).
  - repeat split.
  - vm_compute. discriminate.
  - vm_compute. discriminate.
  - exists x, y. repeat split; assumption.
Defined.

(** * The reassembler *)

Lemma be_sint_be_bytes (n : nat) (x : Z) :
  (0 < n)%nat ->
  - 2 ^ (8 * Z.of_nat n - 1) <= x < 2 ^ (8 * Z.of_nat n - 1) ->
  be_sint (be_bytes n x) = x.
Proof.
  intros Hn Hx. unfold be_sint.
  rewrite be_uint_be_bytes, length_be_bytes.
  assert (P : 256 ^ Z.of_nat n = 2 * 2 ^ (8 * Z.of_nat n - 1)).
  { change 256 with (2 ^ 8). rewrite <- Z.pow_mul_r by lia.
    replace (8 * Z.of_nat n) with (Z.succ (8 * Z.of_nat n - 1)) at 1 by lia.
    apply Z.pow_succ_r. lia. }
  assert (P' : 2 ^ (8 * Z.of_nat n) = 2 * 2 ^ (8 * Z.of_nat n - 1)).
  { replace (8 * Z.of_nat n) with (Z.succ (8 * Z.of_nat n - 1)) at 1 by lia.
    apply Z.pow_succ_r. lia. }
  rewrite P, P'. revert Hx. generalize (2 ^ (8 * Z.of_nat n - 1)). intros h Hx.
  destruct (Z.lt_ge_cases x 0) as [Hneg | Hpos].
  - assert (M : x mod (2 * h) = x + 2 * h).
    { symmetry. apply Z.mod_unique with (-1); lia. }
    rewrite M. destruct (Z.ltb_spec (x + 2 * h) h); lia.
  - rewrite Z.mod_small by lia. destruct (Z.ltb_spec x h); lia.
Qed.

Lemma combine_ints_in_range (int2 int4 : Z) :
  in_range int2 int4 ->
  combine_ints int2 int4 = Ok (be_bytes 4 int4 ++ be_bytes 2 int2).
Proof.
  intros [H2 H4]. unfold combine_ints, pack_h, pack_i.
  repeat match goal with
         | |- context [Z.leb ?a ?b] => destruct (Z.leb_spec a b); [|lia]
         end.
  reflexivity.
Qed.

Lemma combine_ints_out_of_range (int2 int4 : Z) :
  ~ in_range int2 int4 -> combine_ints int2 int4 = Raise ValueError.
Proof.
  intros H. unfold combine_ints.
  destruct (Z.leb_spec (-32767) int2); destruct (Z.leb_spec int2 32767);
    destruct (Z.leb_spec (-2147483648) int4);
    destruct (Z.leb_spec int4 2147483647); cbn [andb]; try reflexivity.
  exfalso. apply H. unfold in_range. lia.
Qed.

(** C4. [combine_ints] raises, and then it raises [ValueError] and returns
    no buffer, exactly when [int2] is outside [-32767, 32767] or [int4] is
    outside [-2147483648, 2147483647]; [combine_ints(-32768, 0)] raises and
    [combine_ints(32767, 2147483647)] returns. *)
Theorem combine_ints_range_error (int2 int4 : Z) :
  (raises (combine_ints int2 int4)
   <-> (int2 < -32767 \/ 32767 < int2 \/ int4 < -2147483648 \/ 2147483647 < int4))
  /\ (combine_ints int2 int4 = Raise ValueError <-> raises (combine_ints int2 int4))
  /\ (succeeds (combine_ints int2 int4) <-> in_range int2 int4)
  /\ combine_ints (-32768) 0 = Raise ValueError
  /\ succeeds (combine_ints 32767 2147483647).
Proof.
  assert (D : in_range int2 int4 \/ ~ in_range int2 int4) by (unfold in_range; lia).
  assert (R : raises (combine_ints int2 int4) <-> ~ in_range int2 int4).
  { split.
    - intros [e He] Hin. rewrite combine_ints_in_range in He by assumption.
      discriminate.
    - intros Hout. exists ValueError. apply combine_ints_out_of_range. assumption. }
  split; [|split; [|split; [|split]]].
  - rewrite R. unfold in_range. lia.
  - split.
    + intros H. exists ValueError. exact H.
    + intros H. apply combine_ints_out_of_range, R, H.
  - split.
    + intros [r Hr]. destruct D as [Hin | Hout]; [exact Hin|].
      rewrite combine_ints_out_of_range in Hr by assumption. discriminate.
    + intros Hin. eexists. apply combine_ints_in_range. assumption.
  - reflexivity.
  - eexists. reflexivity.
Qed.

(** C5. For in-range arguments [combine_ints] returns six bytes: the four
    bytes of [int4] then the two bytes of [int2], each the big-endian
    two's-complement encoding of its integer; [combine_ints(1000, 123456)]
    is [00 01 E2 40 03 E8]. *)
Theorem combine_ints_layout (int2 int4 : Z) :
  in_range int2 int4 ->
  exists big small : bytes,
    combine_ints int2 int4 = Ok (big ++ small)
    /\ length (big ++ small) = 6%nat
    /\ length big = 4%nat /\ length small = 2%nat
    /\ be_sint big = int4 /\ be_sint small = int2
    /\ be_uint big = int4 mod 2 ^ 32 /\ be_uint small = int2 mod 2 ^ 16
    /\ combine_ints 1000 123456 = Ok (bytes_of [0; 1; 226; 64; 3; 232])
    /\ bytes_of [0; 1; 226; 64] = be_bytes 4 123456
    /\ bytes_of [3; 232] = be_bytes 2 1000.
Proof.
  intros Hin. exists (be_bytes 4 int4), (be_bytes 2 int2).
  destruct Hin as [H2 H4].
  split; [apply combine_ints_in_range; split; assumption|].
  split; [rewrite length_app, !length_be_bytes; reflexivity|].
  split; [apply length_be_bytes|]. split; [apply length_be_bytes|].
  split; [apply be_sint_be_bytes; [lia | cbn; lia]|].
  split; [apply be_sint_be_bytes; [lia | cbn; lia]|].
  split; [apply be_uint_be_bytes|]. split; [apply be_uint_be_bytes|].
  repeat split.
Qed.

Lemma combine_ints_layout_witness :
  in_range (-2) (-3)
  /\ exists big small : bytes,
       combine_ints (-2) (-3) = Ok (big ++ small)
       /\ be_sint big = -3 /\ be_sint small = -2.
Proof.
  assert (H : in_range (-2) (-3)) by (unfold in_range; lia).
  split; [exact H|].
  destruct (combine_ints_layout (-2) (-3) H)
    as (big & small & Hc & _ & _ & _ & Hb & Hs & _).
  exists big, small. repeat split; assumption.
Defined.

(** * The decoder's state *)

Lemma read_only_mret {A : Type} (a : A) : read_only (mret a).
Proof. intros self. reflexivity. Qed.

Lemma read_only_lift {A : Type} (r : result A) : read_only (lift r).
Proof. intros self. reflexivity. Qed.

Lemma read_only_mbind {A B : Type} (m : method A) (k : A -> method B) :
  read_only m -> (forall a, read_only (k a)) -> read_only (mbind m k).
Proof.
  intros Hm Hk self. unfold mbind. specialize (Hm self).
  destruct (m self) as [self' [a|e]]; cbn [fst] in Hm; subst self'.
  - apply Hk.
  - reflexivity.
Qed.

Lemma read_only_self_byte (i : nat) : read_only (self_byte i).
Proof.
  apply read_only_mbind; [intros self; reflexivity | intros b; apply read_only_lift].
Qed.

Ltac read_only_steps :=
  repeat first
    [ apply read_only_mret
    | apply read_only_lift
    | apply read_only_self_byte
    | (intros ?self; reflexivity)
    | (apply read_only_mbind; [|intros ?])
    | match goal with
      | |- read_only (if ?c then _ else _) => destruct c
      end ].

Lemma to_single_pure (self : real48) : fst (to_single self) = self.
Proof. revert self. change (read_only to_single). unfold to_single. read_only_steps. Qed.

Lemma to_double_pure (self : real48) : fst (to_double self) = self.
Proof. revert self. change (read_only to_double). unfold to_double. read_only_steps. Qed.

Lemma value_pure (self : real48) : fst (value self) = self.
Proof. revert self. change (read_only value). unfold value. read_only_steps. Qed.

Lemma reverse_bytes_consistent (self : real48) :
  consistent self ->
  consistent (fst (reverse_bytes self)) /\ snd (reverse_bytes self) = Ok tt.
Proof.
  intros Hc. destruct (consistent_inv self Hc) as (b0 & b1 & b2 & b3 & b4 & b5 & ->).
  rewrite reverse_bytes_eq. cbn [fst snd]. split; [|reflexivity].
  unfold consistent, byte_at. cbn [byte_str sign exp nth length].
  rewrite sign_bit_div. repeat split.
Qed.

Lemma run_op_consistent (o : op) (self : real48) :
  consistent self -> consistent (run_op o self).
Proof.
  intros Hc. destruct o; cbn [run_op].
  - apply reverse_bytes_consistent, Hc.
  - rewrite to_single_pure. exact Hc.
  - rewrite to_double_pure. exact Hc.
  - rewrite value_pure. exact Hc.
  - exact Hc.
  - exact Hc.
Qed.

Lemma run_ops_consistent (l : list op) (self : real48) :
  consistent self -> consistent (run_ops l self).
Proof.
  revert self. induction l as [|o l IH]; intros self Hc; [exact Hc|].
  cbn [run_ops fold_left]. apply IH, run_op_consistent, Hc.
Qed.

(** C9. After a successful construction, and after any sequence of calls
    of [reverse_bytes], of the three conversions and of reads of the two
    fields, the buffer has six bytes, [sign] is bit 7 of the current byte 0
    and [exp] is the current byte 5; the conversions and the reads leave the
    object as it was. *)
Theorem decoder_invariant (arg : pyarg) (self : real48) (calls : list op) :
  init arg = Ok self ->
  let self' := run_ops calls self in
  length (byte_str self') = 6%nat
  /\ sign self' = Z.b2z (Z.testbit (byte_at (byte_str self') 0) 7)
  /\ exp self' = byte_at (byte_str self') 5
  /\ run_op OpToSingle self' = self'
  /\ run_op OpToDouble self' = self'
  /\ run_op OpValue self' = self'
  /\ run_op OpReadSign self' = self'
  /\ run_op OpReadExp self' = self'.
Proof.
  intros Hi self'.
  pose proof (run_ops_consistent calls self (init_consistent arg self Hi)) as (L & S & E).
  fold self' in L, S, E.
  split; [exact L|]. split; [exact S|]. split; [exact E|].
  cbn [run_op]. rewrite to_single_pure, to_double_pure, value_pure.
  repeat split.
Qed.

Lemma decoder_invariant_witness :
  exists self : real48,
    new_real48 [18; 52; 86; 120; 154; 200] = Ok self
    /\ let self' := run_ops [OpReverse; OpToSingle; OpReverse; OpValue; OpReverse] self in
       length (byte_str self') = 6%nat
       /\ sign self' = Z.b2z (Z.testbit (byte_at (byte_str self') 0) 7)
       /\ exp self' = byte_at (byte_str self') 5.
Proof.
  eexists. split; [reflexivity|].
  pose proof (decoder_invariant (ArgBytes (bytes_of [18; 52; 86; 120; 154; 200])) _
                [OpReverse; OpToSingle; OpReverse; OpValue; OpReverse] eq_refl)
    as (L & S & E & _).
  repeat split; assumption.
Defined.

(** C6. Calling [reverse_bytes] twice on a decoder returns both times and
    restores the byte string and the cached [sign] and [exp]. *)
Theorem reverse_bytes_twice (self : real48) :
  consistent self ->
  snd (reverse_bytes self) = Ok tt
  /\ snd (reverse_bytes (fst (reverse_bytes self))) = Ok tt
  /\ fst (reverse_bytes (fst (reverse_bytes self))) = self.
Proof.
  intros Hc. destruct (consistent_inv self Hc) as (b0 & b1 & b2 & b3 & b4 & b5 & ->).
  rewrite reverse_bytes_eq. cbn [fst snd]. rewrite reverse_bytes_eq.
  repeat split.
Qed.

Lemma reverse_bytes_twice_witness :
  consistent (mk_real48 (bytes_of [129; 2; 3; 4; 5; 6]) 1 6)
  /\ fst (reverse_bytes (fst (reverse_bytes (mk_real48 (bytes_of [129; 2; 3; 4; 5; 6]) 1 6))))
     = mk_real48 (bytes_of [129; 2; 3; 4; 5; 6]) 1 6.
Proof.
  assert (H : consistent (mk_real48 (bytes_of [129; 2; 3; 4; 5; 6]) 1 6))
    by (repeat split).
  split; [exact H|].
  exact (proj2 (proj2 (reverse_bytes_twice _ H))).
Defined.

(** C10. On every decoder [to_double()] returns, and what it returns is
    neither an infinity nor a NaN: the exponent field [exp + 894] is at
    most 1149, below 2047; for exponent byte 0 the result is zero. *)
Theorem to_double_total_finite (self : real48) :
  consistent self ->
  exists f : float,
    to_double self = (self, Ok f)
    /\ is_finite f = true
    /\ exp self + 894 <= 1149 < 2047
    /\ (exp self = 0 -> f = f0_0).
Proof.
  intros Hc. destruct (consistent_inv self Hc) as (b0 & b1 & b2 & b3 & b4 & b5 & ->).
  pose proof (byte_val_range b5) as R5. cbn [exp].
  destruct (Z.eq_dec (byte_val b5) 0) as [Hz | Hnz].
  - exists f0_0. rewrite to_double_eq, Hz. cbn [Z.eqb].
    repeat split; lia.
  - exists (real48_double [b0; b1; b2; b3; b4; b5]).
    pose proof (to_double_nonzero b0 b1 b2 b3 b4 b5 Hnz) as Hd.
    pose proof (to_double_pure
                  (mk_real48 [b0; b1; b2; b3; b4; b5] (byte_val b0 / 128) (byte_val b5)))
      as Hp.
    destruct (to_double _) as [st r]. cbn [fst snd] in Hd, Hp. subst st r.
    repeat split; lia.
Qed.

Lemma to_double_total_finite_witness :
  exists f : float,
    to_double (mk_real48 (bytes_of [127; 255; 255; 255; 255; 255]) 0 255)
    = (mk_real48 (bytes_of [127; 255; 255; 255; 255; 255]) 0 255, Ok f)
    /\ is_finite f = true.
Proof.
  destruct (to_double_total_finite
              (mk_real48 (bytes_of [127; 255; 255; 255; 255; 255]) 0 255))
    as (f & Hf & Hfin & _).
  - repeat split.
  - exists f. split; assumption.
Defined.

(** * [to_single] *)

Lemma mantissa23_range (r48 : bytes) : 0 <= mantissa23 r48 < 2 ^ 23.
Proof.
  unfold mantissa23, byte_at.
  pose proof (byte_val_range (nth 1 r48 x00)).
  pose proof (byte_val_range (nth 2 r48 x00)).
  pose proof (Z.mod_pos_bound (byte_val (nth 0 r48 x00)) 128 ltac:(lia)).
  lia.
Qed.

Lemma sign_range (b : byte) : 0 <= byte_val b / 128 <= 1.
Proof.
  pose proof (byte_val_range b).
  pose proof (Z.div_pos (byte_val b) 128 ltac:(lia) ltac:(lia)).
  pose proof (Z.div_lt_upper_bound (byte_val b) 128 2 ltac:(lia) ltac:(lia)). lia.
Qed.

(** The integer [to_single] hands to [struct.pack]. *)
Lemma to_single_bits (b0 b1 b2 b3 b4 b5 : byte) :
  byte_val b5 <> 0 ->
  snd (to_single (mk_real48 [b0; b1; b2; b3; b4; b5] (byte_val b0 / 128) (byte_val b5)))
  = rbind (pack_I (byte_val b0 / 128 * 2 ^ (23 + 8) + (byte_val b5 - 2) * 2 ^ 23
                   + mantissa23 [b0; b1; b2; b3; b4; b5]))
          unpack_f.
Proof.
  intros H5. rewrite to_single_eq. cbn [snd].
  destruct (Z.eqb_spec (byte_val b5) 0) as [|_]; [contradiction|].
  f_equal. f_equal. rewrite !Z.shiftl_mul_pow2 by lia.
  unfold mantissa23, byte_at. cbn [nth]. lia.
Qed.

(** From exponent byte 2 on the three fields do not overlap and the
    pattern is a 32-bit word. *)
Lemma to_single_general (b0 b1 b2 b3 b4 b5 : byte) :
  2 <= byte_val b5 ->
  snd (to_single (mk_real48 [b0; b1; b2; b3; b4; b5] (byte_val b0 / 128) (byte_val b5)))
  = Ok (double_of_single
          (float_of_fields 23 8 (Z.testbit (byte_val b0) 7) (byte_val b5 - 2)
             (mantissa23 [b0; b1; b2; b3; b4; b5]))).
Proof.
  intros H5. rewrite to_single_bits by lia.
  pose proof (byte_val_range b5) as R5. pose proof (sign_range b0) as Rs.
  pose proof (mantissa23_range [b0; b1; b2; b3; b4; b5]) as Rm.
  destruct (bit_fields 23 8 (byte_val b0 / 128) (byte_val b5 - 2)
              (mantissa23 [b0; b1; b2; b3; b4; b5])) as (F1 & F2 & F3); try lia.
  rewrite pack_I_unpack_f by lia.
  unfold float_of_bits. rewrite F1, F2, F3, sign_test. reflexivity.
Qed.

(** With exponent byte 1 and a clear sign bit the integer is negative and
    [struct.pack] refuses it. *)
Lemma to_single_exponent_one_positive (b0 b1 b2 b3 b4 b5 : byte) :
  byte_val b5 = 1 -> byte_val b0 / 128 = 0 ->
  snd (to_single (mk_real48 [b0; b1; b2; b3; b4; b5] (byte_val b0 / 128) (byte_val b5)))
  = Raise StructError.
Proof.
  intros H5 Hs. rewrite to_single_bits by lia.
  pose proof (mantissa23_range [b0; b1; b2; b3; b4; b5]) as Rm.
  rewrite pack_I_out_of_range; [reflexivity|]. rewrite H5, Hs. lia.
Qed.

(** With exponent byte 1 and the sign bit set the borrow clears bit 31 and
    fills the exponent field: the result is [+inf] or a NaN. *)
Lemma to_single_exponent_one_negative (b0 b1 b2 b3 b4 b5 : byte) :
  byte_val b5 = 1 -> byte_val b0 / 128 = 1 ->
  snd (to_single (mk_real48 [b0; b1; b2; b3; b4; b5] (byte_val b0 / 128) (byte_val b5)))
  = Ok (if mantissa23 [b0; b1; b2; b3; b4; b5] =? 0
        then S754_infinity false else S754_nan).
Proof.
  intros H5 Hs. rewrite to_single_bits by lia.
  pose proof (mantissa23_range [b0; b1; b2; b3; b4; b5]) as Rm.
  set (m := mantissa23 [b0; b1; b2; b3; b4; b5]) in *.
  replace (byte_val b0 / 128 * 2 ^ (23 + 8) + (byte_val b5 - 2) * 2 ^ 23 + m)
    with (0 * 2 ^ (23 + 8) + 255 * 2 ^ 23 + m) by (rewrite H5, Hs; lia).
  destruct (bit_fields 23 8 0 255 m) as (F1 & F2 & F3); try lia.
  rewrite pack_I_unpack_f by lia.
  unfold float_of_bits. rewrite F1, F2, F3. unfold float_of_fields.
  cbv beta iota zeta. change (255 =? 0) with false. change (255 =? 2 ^ 8 - 1) with true.
  cbv iota. destruct m as [|p|p]; try lia; reflexivity.
Qed.

Lemma binary_round_opp (prec emax : Z) (s : bool) (m : positive) (e : Z) :
  binary_round prec emax (negb s) m e = SFopp (binary_round prec emax s m e).
Proof.
  unfold binary_round, binary_round_aux.
  destruct (shl_align m e _) as [mz ez].
  destruct (shr_fexp prec emax (Zpos mz) ez loc_Exact) as [mrs e'].
  destruct (shr_fexp prec emax _ e' loc_Exact) as [mrs' e''].
  destruct (shr_m mrs'); try reflexivity.
  destruct (Z.leb e'' (emax - prec)); reflexivity.
Qed.

Lemma single_fields_opp (s : bool) (e m : Z) :
  double_of_single (float_of_fields 23 8 (negb s) e m)
  = fneg (double_of_single (float_of_fields 23 8 s e m)).
Proof.
  unfold float_of_fields. cbv zeta.
  destruct (e =? 0).
  - destruct m; cbn [double_of_single fneg SFopp]; try reflexivity.
    apply binary_round_opp.
  - destruct (e =? 2 ^ 8 - 1).
    + destruct m; reflexivity.
    + destruct (m + 2 ^ 23); cbn [double_of_single fneg SFopp]; try reflexivity.
      apply binary_round_opp.
Qed.

(** From exponent byte 3 on the result is a normal number: the 23 kept
    mantissa bits under the real48 exponent. *)
Lemma single_fields_normal (s : bool) (e m : Z) :
  1 <= e <= 254 -> 0 <= m < 2 ^ 23 ->
  double_of_single (float_of_fields 23 8 s e m)
  = S754_finite s (Z.to_pos ((2 ^ 23 + m) * 2 ^ 29)) (e - 179).
Proof.
  intros He Hm. unfold float_of_fields. cbv zeta.
  destruct (Z.eqb_spec e 0) as [|_]; [lia|].
  destruct (Z.eqb_spec e (2 ^ 8 - 1)) as [|_]; [lia|].
  destruct (m + 2 ^ 23) as [|p|p] eqn:P; try lia.
  cbn [double_of_single].
  assert (R : represents (binary_round prec64 emax64 s p (e - (2 ^ (8 - 1) - 1) - 23))
                s (Zpos p) (e - 150)).
  { apply round_value; try lia. replace (e - 150 - _) with 0 by lia. lia. }
  pose proof (represents_scale_down _ _ _ _ 29 R ltac:(lia) ltac:(lia)) as R'.
  rewrite (represents_explicit _ _ _ _ R' ltac:(lia)).
  f_equal; [f_equal|]; lia.
Qed.

Lemma single_fields_finite (s : bool) (e m : Z) :
  0 <= e <= 254 -> 0 <= m < 2 ^ 23 ->
  is_finite (double_of_single (float_of_fields 23 8 s e m)) = true.
Proof.
  intros He Hm. destruct (Z.eq_dec e 0) as [-> | Hne].
  - unfold float_of_fields. cbv zeta. change (0 =? 0) with true. cbv iota.
    destruct m as [|p|p]; try reflexivity. cbn [double_of_single].
    apply represents_finite with (s := s) (T := Zpos p) (j := -149).
    apply round_value; lia.
  - rewrite single_fields_normal by lia. reflexivity.
Qed.

Lemma method_result {A : Type} (m : method A) (self : real48) (r : result A) :
  fst (m self) = self -> snd (m self) = r -> m self = (self, r).
Proof. destruct (m self) as [st x]. cbn [fst snd]. intros -> ->. reflexivity. Qed.

Lemma real48_double_fields (r48 : bytes) :
  1 <= byte_at r48 5 <= 255 ->
  float_of_fields 52 11 (Z.testbit (byte_at r48 0) 7) (byte_at r48 5 + 894)
    (mantissa39 r48 * 2 ^ 13)
  = real48_double r48.
Proof.
  intros H5. pose proof (mantissa39_range r48) as R.
  unfold float_of_fields, real48_double. cbv zeta.
  destruct (Z.eqb_spec (byte_at r48 5 + 894) 0) as [|_]; [lia|].
  destruct (Z.eqb_spec (byte_at r48 5 + 894) (2 ^ 11 - 1)) as [|_]; [lia|].
  destruct (mantissa39 r48 * 2 ^ 13 + 2 ^ 52) as [|q|q] eqn:Q; try lia.
  f_equal; lia.
Qed.

(** C7. With exponent byte 255 neither [to_single()] nor [to_double()]
    raises; each returns what the general path builds, the number with
    exponent field 253 (of at most 254) and 1149 (of at most 2046), which
    is finite. *)
Theorem exponent_255_passthrough (self : real48) :
  consistent self -> byte_at (byte_str self) 5 = 255 ->
  exists f g : float,
    to_single self = (self, Ok f) /\ to_double self = (self, Ok g)
    /\ f = double_of_single
             (float_of_fields 23 8 (Z.testbit (byte_at (byte_str self) 0) 7)
                (255 - 2) (mantissa23 (byte_str self)))
    /\ g = float_of_fields 52 11 (Z.testbit (byte_at (byte_str self) 0) 7)
             (255 + 894) (mantissa39 (byte_str self) * 2 ^ 13)
    /\ is_finite f = true /\ is_finite g = true.
Proof.
  intros Hc H5. destruct (consistent_inv self Hc) as (b0 & b1 & b2 & b3 & b4 & b5 & ->).
  cbn [byte_str] in *. unfold byte_at in H5. cbn [nth] in H5.
  set (bs := [b0; b1; b2; b3; b4; b5]) in *.
  pose proof (mantissa23_range bs) as Rm.
  exists (double_of_single
            (float_of_fields 23 8 (Z.testbit (byte_at bs 0) 7) (255 - 2) (mantissa23 bs))),
         (real48_double bs).
  split; [|split; [|split; [|split; [|split]]]].
  - apply method_result; [apply to_single_pure|].
    unfold bs. rewrite to_single_general by lia. rewrite H5. reflexivity.
  - apply method_result; [apply to_double_pure|].
    unfold bs. apply to_double_nonzero. lia.
  - reflexivity.
  - rewrite <- real48_double_fields by (unfold bs, byte_at; cbn [nth]; lia).
    unfold bs, byte_at. cbn [nth]. rewrite H5. reflexivity.
  - apply single_fields_finite; lia.
  - reflexivity.
Qed.

Lemma exponent_255_passthrough_witness :
  exists f g : float,
    to_single (mk_real48 (bytes_of [255; 255; 255; 255; 255; 255]) 1 255)
    = (mk_real48 (bytes_of [255; 255; 255; 255; 255; 255]) 1 255, Ok f)
    /\ to_double (mk_real48 (bytes_of [255; 255; 255; 255; 255; 255]) 1 255)
       = (mk_real48 (bytes_of [255; 255; 255; 255; 255; 255]) 1 255, Ok g)
    /\ is_finite f = true /\ is_finite g = true.
Proof.
  destruct (exponent_255_passthrough
              (mk_real48 (bytes_of [255; 255; 255; 255; 255; 255]) 1 255))
    as (f & g & Hf & Hg & _ & _ & Ff & Fg).
  - repeat split.
  - reflexivity.
  - exists f, g. repeat split; assumption.
Defined.

(** * Exponent byte 0 *)

Lemma zero_exponent_results (b0 b1 b2 b3 b4 b5 : byte) :
  byte_val b5 = 0 ->
  let self := mk_real48 [b0; b1; b2; b3; b4; b5] (byte_val b0 / 128) (byte_val b5) in
  snd (to_single self) = Ok f0_0
  /\ snd (to_double self) = Ok f0_0
  /\ snd (value self) = Ok (S754_zero (Z.testbit (byte_val b0) 7)).
Proof.
  intros H5 self. unfold self.
  rewrite to_single_eq, to_double_eq, value_eq, H5. cbn [snd Z.eqb].
  split; [reflexivity|]. split; [reflexivity|].
  cbv zeta. rewrite sign_test.
  destruct (pow_2_0_represents (0 - 129) ltac:(lia)) as (p & -> & Hp).
  cbn [rbind]. f_equal.
  destruct Hp as [[? _] | (M & E & -> & _)]; [lia|].
  destruct (Z.testbit (byte_val b0) 7); reflexivity.
Qed.

(** C2. Exponent byte 0 with the sign bit set, bytes [80 00 00 00 00 00]:
    [to_single()] and [to_double()] return [+0.0] but [value()] negates its
    zero mantissa and returns [-0.0]. *)
Theorem value_negative_zero :
  call to_single (new_real48 [128; 0; 0; 0; 0; 0]) = Ok (S754_zero false)
  /\ call to_double (new_real48 [128; 0; 0; 0; 0; 0]) = Ok (S754_zero false)
  /\ call value (new_real48 [128; 0; 0; 0; 0; 0]) = Ok (S754_zero true)
  /\ call value (new_real48 [0; 0; 0; 0; 0; 0]) = Ok (S754_zero false).
Proof. repeat split; vm_compute; reflexivity. Qed.

(** * Exponent byte 1 *)

(** C3. Exponent byte 1, bytes [00 00 00 00 00 01]: the rebiased exponent is
    [-1], the integer handed to [struct.pack('>I', _)] is [-8388608], and
    [to_single()] raises [struct.error] instead of returning a float. *)
Theorem to_single_exponent_one_raises :
  new_real48 [0; 0; 0; 0; 0; 1]
  = Ok (mk_real48 (bytes_of [0; 0; 0; 0; 0; 1]) 0 1)
  /\ Z.shiftl 0 31 + Z.shiftl (1 - 2) 23 + 0 = -8388608
  /\ pack_I (-8388608) = Raise StructError
  /\ call to_single (new_real48 [0; 0; 0; 0; 0; 1]) = Raise StructError.
Proof. repeat split; vm_compute; reflexivity. Qed.

(** C8. Exponent byte 1, bytes [12 34 56 78 9A 01] and the same with the
    sign bit flipped: [to_double()] and [value()] are negated, but
    [to_single()] raises on the first and returns a NaN on the second. *)
Theorem sign_flip_exponent_one :
  call to_single (new_real48 [18; 52; 86; 120; 154; 1]) = Raise StructError
  /\ call to_single (new_real48 [146; 52; 86; 120; 154; 1]) = Ok S754_nan
  /\ call to_single (new_real48 [128; 0; 0; 0; 0; 1]) = Ok (S754_infinity false)
  /\ rbind (call to_double (new_real48 [18; 52; 86; 120; 154; 1])) (fun x => Ok (fneg x))
     = call to_double (new_real48 [146; 52; 86; 120; 154; 1])
  /\ rbind (call value (new_real48 [18; 52; 86; 120; 154; 1])) (fun x => Ok (fneg x))
     = call value (new_real48 [146; 52; 86; 120; 154; 1]).
Proof. repeat split; vm_compute; reflexivity. Qed.

(** * Where the sign bit is only a sign *)

Lemma flip_byte_sign (b : byte) :
  Z.testbit (byte_val (byte_of_Z (Z.lxor (byte_val b) 128))) 7
  = negb (Z.testbit (byte_val b) 7).
Proof. destruct b; reflexivity. Qed.

Lemma flip_byte_low (b : byte) :
  byte_val (byte_of_Z (Z.lxor (byte_val b) 128)) mod 128 = byte_val b mod 128.
Proof. destruct b; reflexivity. Qed.

Lemma land_127 (b : byte) : Z.land (byte_val b) 127 = byte_val b mod 128.
Proof. destruct b; reflexivity. Qed.

Lemma real48_double_flip (b0 b1 b2 b3 b4 b5 : byte) :
  real48_double (flip_sign_bit [b0; b1; b2; b3; b4; b5])
  = fneg (real48_double [b0; b1; b2; b3; b4; b5]).
Proof.
  unfold real48_double, mantissa39, byte_at, flip_sign_bit. cbn [nth fneg SFopp].
  rewrite flip_byte_sign, flip_byte_low. reflexivity.
Qed.

Lemma init_flip (b0 b1 b2 b3 b4 b5 : byte) :
  init (ArgBytes (flip_sign_bit [b0; b1; b2; b3; b4; b5]))
  = Ok (mk_real48 (flip_sign_bit [b0; b1; b2; b3; b4; b5])
          (byte_val (byte_of_Z (Z.lxor (byte_val b0) 128)) / 128) (byte_val b5)).
Proof. rewrite init_six by reflexivity. rewrite <- sign_bit_div. reflexivity. Qed.

(** X10. Flipping the sign bit negates [to_double()] and [value()] whenever
    the exponent byte is not 0, and [to_single()] from exponent byte 2 on. *)
Lemma sign_flip_negates (self self' : real48) :
  consistent self ->
  init (ArgBytes (flip_sign_bit (byte_str self))) = Ok self' ->
  (byte_at (byte_str self) 5 <> 0 ->
   snd (to_double self') = fneg_result (snd (to_double self))
   /\ snd (value self') = fneg_result (snd (value self)))
  /\ (2 <= byte_at (byte_str self) 5 ->
      snd (to_single self') = fneg_result (snd (to_single self))).
Proof.
  intros Hc Hi. destruct (consistent_inv self Hc) as (b0 & b1 & b2 & b3 & b4 & b5 & ->).
  cbn [byte_str] in Hi |- *. rewrite init_flip in Hi. injection Hi as <-.
  unfold byte_at. cbn [nth].
  change (flip_sign_bit [b0; b1; b2; b3; b4; b5])
    with [byte_of_Z (Z.lxor (byte_val b0) 128); b1; b2; b3; b4; b5].
  split.
  - intros H5. rewrite !to_double_nonzero, !value_nonzero by assumption.
    unfold fneg_result. cbn [rbind].
    rewrite <- real48_double_flip. split; reflexivity.
  - intros H5. rewrite !to_single_general by assumption.
    unfold fneg_result. cbn [rbind]. f_equal.
    unfold mantissa23, byte_at. cbn [nth].
    rewrite flip_byte_sign, flip_byte_low. apply single_fields_opp.
Qed.

Lemma lor_disjoint (hi lo n : Z) :
  0 <= n -> 0 <= lo < 2 ^ n -> Z.lor (hi * 2 ^ n) lo = hi * 2 ^ n + lo.
Proof.
  intros Hn Hlo.
  assert (L : Z.land (hi * 2 ^ n) lo = 0).
  { apply Z.bits_inj'. intros i Hi. rewrite Z.land_spec, Z.bits_0.
    destruct (Z.lt_ge_cases i n) as [Hlt | Hge].
    - rewrite Z.mul_pow2_bits_low by lia. reflexivity.
    - rewrite <- (Z.mod_small lo (2 ^ n)) by lia.
      rewrite Z.mod_pow2_bits_high by lia. apply andb_false_r. }
  pose proof (Z.add_lor_land (hi * 2 ^ n) lo) as A. rewrite L in A. lia.
Qed.

Lemma single_pattern_sum (b0 b1 b2 b3 b4 b5 : byte) (sgn e : Z) :
  2 <= e <= 255 -> 0 <= sgn <= 1 ->
  single_pattern sgn e [b0; b1; b2; b3; b4; b5]
  = sgn * 2 ^ (23 + 8) + (e - 2) * 2 ^ 23 + mantissa23 [b0; b1; b2; b3; b4; b5].
Proof.
  intros He Hs. unfold single_pattern, mantissa23, byte_at. cbn [nth].
  pose proof (byte_val_range b1) as R1. pose proof (byte_val_range b2) as R2.
  pose proof (Z.mod_pos_bound (byte_val b0) 128 ltac:(lia)) as R0.
  rewrite land_127, !Z.shiftl_mul_pow2 by lia.
  rewrite (lor_disjoint (byte_val b0 mod 128) (byte_val b1 * 2 ^ 8) 16) by lia.
  replace (byte_val b0 mod 128 * 2 ^ 16 + byte_val b1 * 2 ^ 8)
    with ((byte_val b0 mod 128 * 256 + byte_val b1) * 2 ^ 8) by lia.
  rewrite (lor_disjoint _ (byte_val b2) 8) by lia.
  rewrite (lor_disjoint sgn ((e - 2) * 2 ^ 23) 31) by lia.
  replace (sgn * 2 ^ 31 + (e - 2) * 2 ^ 23) with ((sgn * 256 + (e - 2)) * 2 ^ 23) by lia.
  rewrite (lor_disjoint _ _ 23) by lia. lia.
Qed.

(** X4. From exponent byte 2 on [to_single()] returns the binary32 number
    whose pattern is [(sign << 31) | ((exp - 2) << 23) | mantissa], read as
    a Python float. *)
Lemma to_single_pattern (self : real48) :
  consistent self -> 2 <= byte_at (byte_str self) 5 ->
  snd (to_single self)
  = Ok (double_of_single
          (float_of_bits 23 8 (single_pattern (sign self) (exp self) (byte_str self)))).
Proof.
  intros Hc. destruct (consistent_inv self Hc) as (b0 & b1 & b2 & b3 & b4 & b5 & ->).
  cbn [byte_str sign exp]. unfold byte_at. cbn [nth]. intros H5.
  pose proof (byte_val_range b5) as R5. pose proof (sign_range b0) as Rs.
  pose proof (mantissa23_range [b0; b1; b2; b3; b4; b5]) as Rm.
  rewrite to_single_bits by lia.
  rewrite single_pattern_sum by lia.
  apply pack_I_unpack_f. lia.
Qed.


(** * Further properties of the constructor and of [reverse_bytes] *)

(** X1. The constructor raises [TypeError] exactly for an argument that is
    not a [bytes] object and [FloatingPointError] exactly for a [bytes]
    object whose length is not 6; it never raises anything else, and it
    succeeds exactly on six bytes, with [sign] in 0..1 and [exp] in 0..255
    read from bytes 0 and 5. *)
Theorem init_outcomes (arg : pyarg) :
  (init arg = Raise TypeError <-> arg = ArgOther)
  /\ (init arg = Raise FloatingPointError
      <-> exists r48, arg = ArgBytes r48 /\ length r48 <> 6%nat)
  /\ (raises (init arg)
      <-> init arg = Raise TypeError \/ init arg = Raise FloatingPointError)
  /\ (succeeds (init arg) <-> exists r48, arg = ArgBytes r48 /\ length r48 = 6%nat)
  /\ (succeeds (init arg)
      <-> exists r48,
            arg = ArgBytes r48
            /\ init arg = Ok (mk_real48 r48 (byte_at r48 0 / 128) (byte_at r48 5))
            /\ 0 <= byte_at r48 0 / 128 <= 1 /\ 0 <= byte_at r48 5 <= 255).
Proof.
  destruct arg as [r48|].
  - destruct (Nat.eq_dec (length r48) 6) as [L | L].
    + pose proof (init_six r48 L) as Hi.
      unfold byte_at in Hi at 1. rewrite sign_bit_div in Hi. fold (byte_at r48 0) in Hi.
      rewrite Hi. unfold succeeds, raises.
      split; [split; [discriminate | discriminate]|].
      split; [split; [discriminate | intros (r & Hr & Hl); injection Hr as <-; contradiction]|].
      split; [split; [intros [e He]; discriminate | intros [H | H]; discriminate]|].
      split.
      * split; [intros _; exists r48; split; [reflexivity | exact L] | intros _; eexists; reflexivity].
      * split; [|intros _; eexists; reflexivity].
        intros _. exists r48. split; [reflexivity|]. split; [reflexivity|].
        unfold byte_at. split; [apply sign_range | apply byte_val_range].
    + assert (Hi : init (ArgBytes r48) = Raise FloatingPointError).
      { unfold init. destruct (Nat.eqb_spec (length r48) 6); [contradiction | reflexivity]. }
      rewrite Hi. unfold succeeds, raises.
      split; [split; [discriminate | discriminate]|].
      split; [split; [intros _; exists r48; split; [reflexivity | exact L] | reflexivity]|].
      split; [split; [intros _; right; reflexivity | intros _; eexists; reflexivity]|].
      split.
      * split; [intros [a Ha]; discriminate|].
        intros (r & Hr & Hl). injection Hr as <-. contradiction.
      * split; [intros [a Ha]; discriminate|].
        intros (r & _ & Hr & _). discriminate.
  - cbn [init]. unfold succeeds, raises.
    split; [split; reflexivity|].
    split; [split; [discriminate | intros (r & Hr & _); discriminate]|].
    split; [split; [intros _; left; reflexivity | intros _; eexists; reflexivity]|].
    split.
    + split; [intros [a Ha]; discriminate | intros (r & Hr & _); discriminate].
    + split; [intros [a Ha]; discriminate | intros (r & Hr & _); discriminate].
Qed.

(** X2. On a decoder, [reverse_bytes] returns and leaves the object a
    fresh construction from the reversed byte string would give. *)
Theorem reverse_bytes_reconstructs (self : real48) :
  consistent self ->
  snd (reverse_bytes self) = Ok tt
  /\ init (ArgBytes (rev (byte_str self))) = Ok (fst (reverse_bytes self))
  /\ byte_str (fst (reverse_bytes self)) = rev (byte_str self).
Proof.
  intros Hc. destruct (consistent_inv self Hc) as (b0 & b1 & b2 & b3 & b4 & b5 & ->).
  rewrite reverse_bytes_eq. cbn [fst snd byte_str rev app].
  split; [reflexivity|]. split; [|reflexivity].
  rewrite init_six by reflexivity. unfold byte_at. cbn [nth].
  rewrite sign_bit_div. reflexivity.
Qed.

Lemma reverse_bytes_reconstructs_witness :
  consistent (mk_real48 (bytes_of [129; 2; 3; 4; 5; 6]) 1 6)
  /\ init (ArgBytes (rev (bytes_of [129; 2; 3; 4; 5; 6])))
     = Ok (fst (reverse_bytes (mk_real48 (bytes_of [129; 2; 3; 4; 5; 6]) 1 6))).
Proof.
  assert (H : consistent (mk_real48 (bytes_of [129; 2; 3; 4; 5; 6]) 1 6))
    by (repeat split).
  split; [exact H|].
  exact (proj1 (proj2 (reverse_bytes_reconstructs _ H))).
Defined.

(** * Further properties of [to_single] *)

Lemma to_single_cases (b0 b1 b2 b3 b4 b5 : byte) :
  let self := mk_real48 [b0; b1; b2; b3; b4; b5] (byte_val b0 / 128) (byte_val b5) in
  (byte_val b5 = 0 /\ snd (to_single self) = Ok f0_0)
  \/ (byte_val b5 = 1 /\ byte_val b0 / 128 = 0
      /\ snd (to_single self) = Raise StructError)
  \/ (byte_val b5 = 1 /\ byte_val b0 / 128 = 1
      /\ exists f, snd (to_single self) = Ok f /\ is_finite f = false)
  \/ (2 <= byte_val b5
      /\ exists f, snd (to_single self) = Ok f /\ is_finite f = true).
Proof.
  intros self. unfold self.
  pose proof (byte_val_range b5) as R5. pose proof (sign_range b0) as Rs.
  pose proof (mantissa23_range [b0; b1; b2; b3; b4; b5]) as Rm.
  destruct (Z.eq_dec (byte_val b5) 0) as [H0 | H0].
  { left. split; [exact H0|]. rewrite to_single_eq, H0. reflexivity. }
  destruct (Z.eq_dec (byte_val b5) 1) as [H1 | H1].
  - destruct (Z.eq_dec (byte_val b0 / 128) 0) as [Hs | Hs].
    + right; left. repeat split; try assumption.
      apply to_single_exponent_one_positive; assumption.
    + right; right; left. assert (Hs1 : byte_val b0 / 128 = 1) by lia.
      repeat split; try assumption.
      rewrite to_single_exponent_one_negative by assumption.
      eexists. split; [reflexivity|].
      destruct (mantissa23 [b0; b1; b2; b3; b4; b5] =? 0); reflexivity.
  - right; right; right. split; [lia|].
    rewrite to_single_general by lia. eexists. split; [reflexivity|].
    apply single_fields_finite; lia.
Qed.

(** X3. On a decoder [to_single()] raises exactly when the exponent byte is
    1 and the sign bit is clear, and what it raises is [struct.error]; when
    it returns, the float is finite exactly when the exponent byte is not 1
    (with exponent byte 1 and the sign bit set it is [+inf] or a NaN). *)
Theorem to_single_outcomes (self : real48) :
  consistent self ->
  (raises (snd (to_single self))
   <-> byte_at (byte_str self) 5 = 1 /\ sign self = 0)
  /\ (raises (snd (to_single self)) <-> snd (to_single self) = Raise StructError)
  /\ (forall f : float,
        snd (to_single self) = Ok f ->
        (is_finite f = true <-> byte_at (byte_str self) 5 <> 1)).
Proof.
  intros Hc. destruct (consistent_inv self Hc) as (b0 & b1 & b2 & b3 & b4 & b5 & ->).
  cbn [byte_str sign exp]. unfold byte_at. cbn [nth]. unfold raises.
  destruct (to_single_cases b0 b1 b2 b3 b4 b5)
    as [(H5 & ->) | [(H5 & Hs & ->) | [(H5 & Hs & f & -> & Hf) | (H5 & f & -> & Hf)]]].
  - split; [split; [intros [e He]; discriminate | lia]|].
    split; [split; [intros [e He]; discriminate | discriminate]|].
    intros f Hf. injection Hf as <-. split; [lia | reflexivity].
  - split; [split; [intros _; split; assumption | intros _; eexists; reflexivity]|].
    split; [split; [reflexivity | intros _; eexists; reflexivity]|].
    intros f Hf. discriminate.
  - split; [split; [intros [e He]; discriminate | lia]|].
    split; [split; [intros [e He]; discriminate | discriminate]|].
    intros g Hg. injection Hg as <-. rewrite Hf. split; [discriminate | lia].
  - split; [split; [intros [e He]; discriminate | lia]|].
    split; [split; [intros [e He]; discriminate | discriminate]|].
    intros g Hg. injection Hg as <-. rewrite Hf. split; [lia | reflexivity].
Qed.

Lemma to_single_outcomes_witness :
  consistent (mk_real48 (bytes_of [5; 6; 7; 8; 9; 1]) 0 1)
  /\ snd (to_single (mk_real48 (bytes_of [5; 6; 7; 8; 9; 1]) 0 1)) = Raise StructError.
Proof.
  assert (H : consistent (mk_real48 (bytes_of [5; 6; 7; 8; 9; 1]) 0 1))
    by (repeat split).
  split; [exact H|].
  destruct (to_single_outcomes _ H) as (R & S & _).
  apply S, R. split; reflexivity.
Defined.

Lemma to_single_pattern_witness :
  consistent (mk_real48 (bytes_of [146; 52; 86; 120; 154; 2]) 1 2)
  /\ snd (to_single (mk_real48 (bytes_of [146; 52; 86; 120; 154; 2]) 1 2))
     = Ok (double_of_single
             (float_of_bits 23 8
                (single_pattern 1 2 (bytes_of [146; 52; 86; 120; 154; 2])))).
Proof.
  assert (H : consistent (mk_real48 (bytes_of [146; 52; 86; 120; 154; 2]) 1 2))
    by (repeat split).
  split; [exact H|].
  exact (to_single_pattern _ H ltac:(vm_compute; discriminate)).
Defined.

(** X5. From exponent byte 3 on, [to_single()] and [to_double()] return
    normal numbers with the same sign and the same exponent, and the
    mantissa of [to_single()] is that of [to_double()] with its low 29 bits
    cleared: the 39-bit mantissa is truncated to 23 bits, not rounded. *)
Theorem to_single_truncates (self : real48) :
  consistent self -> 3 <= byte_at (byte_str self) 5 ->
  exists ms md : positive,
    snd (to_single self)
    = Ok (S754_finite (Z.testbit (byte_at (byte_str self) 0) 7) ms
            (byte_at (byte_str self) 5 - 181))
    /\ snd (to_double self)
       = Ok (S754_finite (Z.testbit (byte_at (byte_str self) 0) 7) md
               (byte_at (byte_str self) 5 - 181))
    /\ Zpos ms = Zpos md / 2 ^ 29 * 2 ^ 29
    /\ 2 ^ 52 <= Zpos ms /\ Zpos ms <= Zpos md /\ Zpos md < 2 ^ 53.
Proof.
  intros Hc. destruct (consistent_inv self Hc) as (b0 & b1 & b2 & b3 & b4 & b5 & ->).
  cbn [byte_str]. unfold byte_at. cbn [nth]. intros H5.
  pose proof (byte_val_range b5) as R5.
  pose proof (byte_val_range b3) as R3. pose proof (byte_val_range b4) as R4.
  pose proof (mantissa23_range [b0; b1; b2; b3; b4; b5]) as Rm.
  pose proof (mantissa39_range [b0; b1; b2; b3; b4; b5]) as RM.
  assert (HM : mantissa39 [b0; b1; b2; b3; b4; b5]
               = mantissa23 [b0; b1; b2; b3; b4; b5] * 2 ^ 16
                 + (byte_val b3 * 256 + byte_val b4)).
  { unfold mantissa39, mantissa23, byte_at. cbn [nth]. lia. }
  exists (Z.to_pos ((2 ^ 23 + mantissa23 [b0; b1; b2; b3; b4; b5]) * 2 ^ 29)),
         (Z.to_pos ((2 ^ 39 + mantissa39 [b0; b1; b2; b3; b4; b5]) * 2 ^ 13)).
  split; [|split].
  - rewrite to_single_general by lia. rewrite single_fields_normal by lia.
    do 2 f_equal. lia.
  - rewrite to_double_nonzero by lia. reflexivity.
  - rewrite !Z2Pos.id by lia. rewrite HM.
    set (m := mantissa23 [b0; b1; b2; b3; b4; b5]) in *.
    set (low := byte_val b3 * 256 + byte_val b4).
    assert (Hlow : 0 <= low < 2 ^ 16) by (unfold low; lia).
    replace ((2 ^ 39 + (m * 2 ^ 16 + low)) * 2 ^ 13)
      with ((2 ^ 23 + m) * 2 ^ 29 + low * 2 ^ 13) by lia.
    rewrite Z.div_add_l, (Z.div_small (low * 2 ^ 13)) by lia.
    repeat split; lia.
Qed.

Lemma to_single_truncates_witness :
  exists ms md : positive,
    snd (to_single (mk_real48 (bytes_of [18; 52; 86; 255; 255; 200]) 0 200))
    = Ok (S754_finite false ms 19)
    /\ snd (to_double (mk_real48 (bytes_of [18; 52; 86; 255; 255; 200]) 0 200))
       = Ok (S754_finite false md 19)
    /\ Zpos ms = Zpos md / 2 ^ 29 * 2 ^ 29.
Proof.
  destruct (to_single_truncates (mk_real48 (bytes_of [18; 52; 86; 255; 255; 200]) 0 200))
    as (ms & md & Hs & Hd & Ht & _).
  - repeat split.
  - vm_compute. discriminate.
  - exists ms, md. repeat split; assumption.
Defined.

(** X6. With exponent byte 2 the exponent field of the pattern is 0, so
    [to_single()] returns the subnormal [mantissa * 2^-149] without the
    implicit leading one: a signed zero when the 23 kept mantissa bits are
    all clear, while [to_double()] returns a number that is not zero. *)
Theorem to_single_exponent_two (self : real48) :
  consistent self -> byte_at (byte_str self) 5 = 2 ->
  exists f : float,
    snd (to_single self) = Ok f
    /\ represents f (Z.testbit (byte_at (byte_str self) 0) 7)
         (mantissa23 (byte_str self)) (-149)
    /\ (mantissa23 (byte_str self) = 0
        -> f = S754_zero (Z.testbit (byte_at (byte_str self) 0) 7))
    /\ snd (to_double self)
       = Ok (S754_finite (Z.testbit (byte_at (byte_str self) 0) 7)
               (Z.to_pos ((2 ^ 39 + mantissa39 (byte_str self)) * 2 ^ 13)) (-179)).
Proof.
  intros Hc. destruct (consistent_inv self Hc) as (b0 & b1 & b2 & b3 & b4 & b5 & ->).
  cbn [byte_str]. unfold byte_at at 1. cbn [nth]. intros H5.
  pose proof (mantissa23_range [b0; b1; b2; b3; b4; b5]) as Rm.
  rewrite to_single_general by lia. rewrite to_double_nonzero by lia.
  rewrite H5. change (2 - 2) with 0.
  eexists. split; [reflexivity|].
  unfold byte_at. cbn [nth].
  split; [|split].
  - unfold float_of_fields. cbv zeta. change (0 =? 0) with true. cbv iota.
    destruct (mantissa23 [b0; b1; b2; b3; b4; b5]) as [|p|p] eqn:P; try lia.
    + left. split; reflexivity.
    + cbn [double_of_single]. apply round_value; lia.
  - intros ->. reflexivity.
  - unfold real48_double, byte_at. cbn [nth]. rewrite H5. reflexivity.
Qed.

Lemma to_single_exponent_two_witness :
  exists f : float,
    snd (to_single (mk_real48 (bytes_of [128; 0; 0; 7; 9; 2]) 1 2)) = Ok f
    /\ f = S754_zero true.
Proof.
  destruct (to_single_exponent_two (mk_real48 (bytes_of [128; 0; 0; 7; 9; 2]) 1 2))
    as (f & Hf & _ & Hz & _).
  - repeat split.
  - reflexivity.
  - exists f. split; [exact Hf|]. apply Hz. reflexivity.
Defined.

(** * Further properties of [value] and [to_double] *)

(** X7. On every decoder [value()] returns: it never raises, it leaves the
    object unchanged, and its result is finite. *)
Theorem value_total_finite (self : real48) :
  consistent self ->
  exists f : float, value self = (self, Ok f) /\ is_finite f = true.
Proof.
  intros Hc. destruct (consistent_inv self Hc) as (b0 & b1 & b2 & b3 & b4 & b5 & ->).
  destruct (Z.eq_dec (byte_val b5) 0) as [H0 | H0].
  - destruct (zero_exponent_results b0 b1 b2 b3 b4 b5 H0) as (_ & _ & Hv).
    eexists. split; [apply method_result; [apply value_pure | exact Hv]|reflexivity].
  - eexists. split; [apply method_result; [apply value_pure|]|].
    + apply value_nonzero. exact H0.
    + reflexivity.
Qed.

Lemma value_total_finite_witness :
  exists f : float,
    value (mk_real48 (bytes_of [255; 255; 255; 255; 255; 255]) 1 255)
    = (mk_real48 (bytes_of [255; 255; 255; 255; 255; 255]) 1 255, Ok f)
    /\ is_finite f = true.
Proof.
  destruct (value_total_finite
              (mk_real48 (bytes_of [255; 255; 255; 255; 255; 255]) 1 255))
    as (f & Hf & Hfin).
  - repeat split.
  - exists f. split; assumption.
Defined.

(** X8. On every decoder [value()] and [to_double()] return the same
    float, exponent byte 255 included, except for exponent byte 0 with the
    sign bit set, where [to_double()] returns [+0.0] and [value()] [-0.0]. *)
Theorem value_to_double_compare (self : real48) :
  consistent self ->
  exists x y : float,
    snd (to_double self) = Ok x /\ snd (value self) = Ok y
    /\ (x = y <-> ~ (byte_at (byte_str self) 5 = 0 /\ sign self = 1))
    /\ (byte_at (byte_str self) 5 = 0 /\ sign self = 1 ->
        x = S754_zero false /\ y = S754_zero true).
Proof.
  intros Hc. destruct (consistent_inv self Hc) as (b0 & b1 & b2 & b3 & b4 & b5 & ->).
  cbn [byte_str sign]. unfold byte_at. cbn [nth].
  pose proof (sign_range b0) as Rs.
  destruct (Z.eq_dec (byte_val b5) 0) as [H0 | H0].
  - destruct (zero_exponent_results b0 b1 b2 b3 b4 b5 H0) as (_ & -> & ->).
    exists f0_0, (S754_zero (Z.testbit (byte_val b0) 7)).
    split; [reflexivity|]. split; [reflexivity|].
    rewrite <- sign_test.
    destruct (Z.eqb_spec (byte_val b0 / 128) 1) as [H1 | H1].
    + split; [split; [discriminate | intros H; exfalso; apply H; split; assumption]|].
      intros _. split; reflexivity.
    + split; [split; [lia | reflexivity]|]. lia.
  - exists (real48_double [b0; b1; b2; b3; b4; b5]),
           (real48_double [b0; b1; b2; b3; b4; b5]).
    split; [apply to_double_nonzero; exact H0|].
    split; [apply value_nonzero; exact H0|].
    split; [split; [lia | reflexivity]|]. lia.
Qed.

Lemma value_to_double_compare_witness :
  exists x y : float,
    snd (to_double (mk_real48 (bytes_of [1; 2; 3; 4; 5; 255]) 0 255)) = Ok x
    /\ snd (value (mk_real48 (bytes_of [1; 2; 3; 4; 5; 255]) 0 255)) = Ok y
    /\ x = y.
Proof.
  destruct (value_to_double_compare (mk_real48 (bytes_of [1; 2; 3; 4; 5; 255]) 0 255))
    as (x & y & Hx & Hy & He & _).
  - repeat split.
  - exists x, y. split; [exact Hx|]. split; [exact Hy|].
    apply He. intros [H _]. vm_compute in H. discriminate.
Defined.

(** X9. With exponent byte 0, whatever the sign bit and the mantissa bytes,
    [to_single()] and [to_double()] return [+0.0] and [value()] returns a
    zero whose sign is the sign bit. *)
Theorem zero_exponent (self : real48) :
  consistent self -> byte_at (byte_str self) 5 = 0 ->
  to_single self = (self, Ok (S754_zero false))
  /\ to_double self = (self, Ok (S754_zero false))
  /\ value self = (self, Ok (S754_zero (Z.testbit (byte_at (byte_str self) 0) 7))).
Proof.
  intros Hc. destruct (consistent_inv self Hc) as (b0 & b1 & b2 & b3 & b4 & b5 & ->).
  cbn [byte_str]. unfold byte_at. cbn [nth]. intros H0.
  destruct (zero_exponent_results b0 b1 b2 b3 b4 b5 H0) as (Hs & Hd & Hv).
  split; [|split]; apply method_result;
    auto using to_single_pure, to_double_pure, value_pure.
Qed.

Lemma zero_exponent_witness :
  consistent (mk_real48 (bytes_of [255; 254; 253; 252; 251; 0]) 1 0)
  /\ snd (to_single (mk_real48 (bytes_of [255; 254; 253; 252; 251; 0]) 1 0))
     = Ok (S754_zero false)
  /\ snd (value (mk_real48 (bytes_of [255; 254; 253; 252; 251; 0]) 1 0))
     = Ok (S754_zero true).
Proof.
  assert (H : consistent (mk_real48 (bytes_of [255; 254; 253; 252; 251; 0]) 1 0))
    by (repeat split).
  split; [exact H|].
  destruct (zero_exponent _ H eq_refl) as (Hs & _ & Hv).
  split; [exact (f_equal snd Hs) | exact (f_equal snd Hv)].
Defined.

Lemma sign_flip_negates_witness :
  snd (to_double (mk_real48 (bytes_of [146; 52; 86; 120; 154; 200]) 1 200))
  = fneg_result (snd (to_double (mk_real48 (bytes_of [18; 52; 86; 120; 154; 200]) 0 200)))
  /\ snd (to_single (mk_real48 (bytes_of [146; 52; 86; 120; 154; 200]) 1 200))
     = fneg_result (snd (to_single (mk_real48 (bytes_of [18; 52; 86; 120; 154; 200]) 0 200))).
Proof.
  destruct (sign_flip_negates
              (mk_real48 (bytes_of [18; 52; 86; 120; 154; 200]) 0 200)
              (mk_real48 (bytes_of [146; 52; 86; 120; 154; 200]) 1 200))
    as (Hd & Hs).
  - repeat split.
  - reflexivity.
  - split.
    + apply Hd. vm_compute. discriminate.
    + apply Hs. vm_compute. discriminate.
Defined.

Lemma byte_val_inj (b c : byte) : byte_val b = byte_val c -> b = c.
Proof. intros H. rewrite <- (byte_of_Z_val b), <- (byte_of_Z_val c), H. reflexivity. Qed.

Lemma byte_split (b : byte) :
  byte_val b = 128 * Z.b2z (Z.testbit (byte_val b) 7) + byte_val b mod 128.
Proof. destruct b; reflexivity. Qed.

Lemma digit_unique (x y a b : Z) :
  0 <= a < 256 -> 0 <= b < 256 -> x * 256 + a = y * 256 + b -> x = y /\ a = b.
Proof. intros Ha Hb H. lia. Qed.

(** X11. [to_double()] loses nothing: two decoders with non-zero exponent
    bytes for which it returns the same float are the same decoder, byte
    for byte. *)
Theorem to_double_injective (self1 self2 : real48) :
  consistent self1 -> consistent self2 ->
  byte_at (byte_str self1) 5 <> 0 -> byte_at (byte_str self2) 5 <> 0 ->
  snd (to_double self1) = snd (to_double self2) ->
  self1 = self2.
Proof.
  intros Hc1 Hc2.
  destruct (consistent_inv self1 Hc1) as (b0 & b1 & b2 & b3 & b4 & b5 & ->).
  destruct (consistent_inv self2 Hc2) as (c0 & c1 & c2 & c3 & c4 & c5 & ->).
  cbn [byte_str]. unfold byte_at. cbn [nth]. intros Hb Hc.
  rewrite !to_double_nonzero by assumption. unfold real48_double.
  pose proof (mantissa39_range [b0; b1; b2; b3; b4; b5]) as Rb.
  pose proof (mantissa39_range [c0; c1; c2; c3; c4; c5]) as Rc.
  remember (Z.to_pos ((2 ^ 39 + mantissa39 [b0; b1; b2; b3; b4; b5]) * 2 ^ 13)) as p eqn:Hp.
  remember (Z.to_pos ((2 ^ 39 + mantissa39 [c0; c1; c2; c3; c4; c5]) * 2 ^ 13)) as q eqn:Hq.
  intros H. injection H as Hs Hm He. subst p q.
  apply Z2Pos.inj in Hm; try lia.
  unfold byte_at in Hs, He. cbn [nth] in Hs, He.
  assert (HM : mantissa39 [b0; b1; b2; b3; b4; b5] = mantissa39 [c0; c1; c2; c3; c4; c5]).
  { revert Hm. generalize (mantissa39 [b0; b1; b2; b3; b4; b5])
      (mantissa39 [c0; c1; c2; c3; c4; c5]). intros; lia. }
  unfold mantissa39, byte_at in HM. cbn [nth] in HM.
  pose proof (byte_val_range b1). pose proof (byte_val_range b2).
  pose proof (byte_val_range b3). pose proof (byte_val_range b4).
  pose proof (byte_val_range c1). pose proof (byte_val_range c2).
  pose proof (byte_val_range c3). pose proof (byte_val_range c4).
  pose proof (Z.mod_pos_bound (byte_val b0) 128 ltac:(lia)).
  pose proof (Z.mod_pos_bound (byte_val c0) 128 ltac:(lia)).
  apply digit_unique in HM as [HM E4]; [|lia|lia].
  apply digit_unique in HM as [HM E3]; [|lia|lia].
  apply digit_unique in HM as [HM E2]; [|lia|lia].
  apply digit_unique in HM as [E0' E1]; [|lia|lia].
  assert (E0 : byte_val b0 = byte_val c0).
  { assert (Hs' : Z.testbit (byte_val b0) 7 = Z.testbit (byte_val c0) 7) by exact Hs.
    rewrite (byte_split b0), (byte_split c0), Hs', E0'. reflexivity. }
  assert (E5 : byte_val b5 = byte_val c5) by lia.
  apply byte_val_inj in E0, E1, E2, E3, E4, E5. subst. reflexivity.
Qed.

Lemma to_double_injective_witness :
  snd (to_double (mk_real48 (bytes_of [18; 52; 86; 120; 154; 200]) 0 200))
  <> snd (to_double (mk_real48 (bytes_of [18; 52; 86; 120; 155; 200]) 0 200)).
Proof.
  intros H.
  apply to_double_injective in H.
  - discriminate H.
  - repeat split.
  - repeat split.
  - vm_compute. discriminate.
  - vm_compute. discriminate.
Defined.

(** * Further properties of [combine_ints] *)

Lemma Ok_inj {A : Type} (a b : A) : Ok a = Ok b -> a = b.
Proof. intros H. injection H as H. exact H. Qed.

(** X12. On in-range arguments [combine_ints] is one-to-one: two pairs that
    give the same six bytes are the same pair. *)
Theorem combine_ints_injective (int2 int4 int2' int4' : Z) :
  in_range int2 int4 -> in_range int2' int4' ->
  combine_ints int2 int4 = combine_ints int2' int4' ->
  int2 = int2' /\ int4 = int4'.
Proof.
  intros Hin Hin' E.
  rewrite !combine_ints_in_range in E by assumption. apply Ok_inj in E.
  destruct Hin as [R2 R4]. destruct Hin' as [R2' R4'].
  assert (E4 : be_bytes 4 int4 = be_bytes 4 int4').
  { apply (f_equal (firstn 4)) in E.
    rewrite !firstn_app, !length_be_bytes in E. cbn [Nat.sub firstn] in E.
    rewrite !app_nil_r in E.
    rewrite <- (firstn_all (be_bytes 4 int4)), <- (firstn_all (be_bytes 4 int4')).
    rewrite !length_be_bytes. exact E. }
  assert (E2 : be_bytes 2 int2 = be_bytes 2 int2').
  { rewrite E4 in E. apply app_inv_head in E. exact E. }
  apply (f_equal be_sint) in E4, E2.
  rewrite !be_sint_be_bytes in E4, E2 by (try lia; cbn; lia).
  split; assumption.
Qed.

Lemma combine_ints_injective_witness :
  combine_ints 1000 123456 <> combine_ints 1000 123457.
Proof.
  intros E. apply combine_ints_injective in E.
  - destruct E as [_ E]. discriminate E.
  - unfold in_range. lia.
  - unfold in_range. lia.
Defined.

Lemma be_bytes_4 (x : Z) :
  be_bytes 4 x
  = [byte_of_Z (x / 256 / 256 / 256); byte_of_Z (x / 256 / 256);
     byte_of_Z (x / 256); byte_of_Z x].
Proof. reflexivity. Qed.

Lemma be_bytes_2 (x : Z) : be_bytes 2 x = [byte_of_Z (x / 256); byte_of_Z x].
Proof. reflexivity. Qed.

(** X13. The six bytes [combine_ints] returns are always accepted by the
    constructor.  The decoder built from them has the sign of [int4] as its
    [sign] and the low byte of [int2] as its [exp]; after [reverse_bytes],
    as the docstring asks, [exp] is the high byte of [int4] and [sign] the
    top bit of the low byte of [int2]. *)
Theorem combine_ints_decoder (int2 int4 : Z) :
  in_range int2 int4 ->
  exists (r48 : bytes) (self : real48),
    combine_ints int2 int4 = Ok r48
    /\ init (ArgBytes r48) = Ok self
    /\ sign self = (if int4 <? 0 then 1 else 0)
    /\ exp self = int2 mod 256
    /\ snd (reverse_bytes self) = Ok tt
    /\ exp (fst (reverse_bytes self)) = (int4 mod 2 ^ 32) / 2 ^ 24
    /\ sign (fst (reverse_bytes self)) = (int2 mod 256) / 128.
Proof.
  intros Hin. pose proof Hin as [H2 H4].
  exists (be_bytes 4 int4 ++ be_bytes 2 int2).
  rewrite be_bytes_4, be_bytes_2. cbn [app].
  eexists. split; [rewrite combine_ints_in_range, be_bytes_4, be_bytes_2 by assumption;
                   reflexivity|].
  split; [apply init_six; reflexivity|].
  cbn [sign exp]. unfold byte_at. cbn [nth].
  rewrite reverse_bytes_eq. cbn [fst snd sign exp].
  rewrite sign_bit_div, !byte_val_of_Z.
  split; [|split; [reflexivity|split; [reflexivity|split; [|reflexivity]]]].
  - destruct (Z.ltb_spec int4 0); Z.div_mod_to_equations; lia.
  - change (2 ^ 32) with 4294967296. change (2 ^ 24) with 16777216.
    Z.div_mod_to_equations. lia.
Qed.

Lemma combine_ints_decoder_witness :
  in_range 1000 (-123456)
  /\ exists (r48 : bytes) (self : real48),
       combine_ints 1000 (-123456) = Ok r48
       /\ init (ArgBytes r48) = Ok self
       /\ sign self = 1 /\ exp self = 232.
Proof.
  assert (H : in_range 1000 (-123456)) by (unfold in_range; lia).
  split; [exact H|].
  destruct (combine_ints_decoder 1000 (-123456) H)
    as (r48 & self & Hc & Hi & Hs & He & _).
  exists r48, self. repeat split; assumption.
Defined.
